(** * Task-dispatch core: zone partitioner and task writer

    A shallow embedding of
    - [common/types] (zone names, zone status, zone partitions),
    - [common/partition/default-partitioner.go] (the zone-state handler and
      the default partitioner),
    - [service/matching/taskWriter.go] (the task writer),
    together with the properties of these programs. *)

From Stdlib Require Import ZArith Lia List Bool Sorted.
From stdpp Require Import base gmap strings list list_numbers sorting.

Local Open Scope string_scope.
Local Open Scope list_scope.
Local Open Scope Z_scope.

(** ** Errors and results *)

(** Go [error] values.  [Errorf ctx cause] is [fmt.Errorf(ctx + ": %w", cause)];
    [ExternalError] stands for an error value handed back by a collaborator
    (persistence, domain cache, dynamic config). *)
Inductive error : Type :=
| errShutdown
| ServiceBusyError (msg : string)
| SyntaxError
| UnmarshalTypeError
| InvalidStateError
| ExternalError (tag : string)
| Errorf (ctx : string) (cause : error).

(** The pair [(T, error)] returned by a Go function. *)
Inductive result (A : Type) : Type :=
| ROk (a : A)
| RErr (e : error).
Arguments ROk {A} a.
Arguments RErr {A} e.

(** A call that may also end in a run-time panic. *)
Inductive outcome (A : Type) : Type :=
| Ok (a : A)
| Err (e : error)
| Panic (msg : string).
Arguments Ok {A} a.
Arguments Err {A} e.
Arguments Panic {A} msg.

(** ** 64-bit signed integers *)

Module Int64.

Definition modulus : Z := 2 ^ 64.
Definition max_int : Z := 2 ^ 63 - 1.
Definition min_int : Z := - 2 ^ 63.

(** Two's-complement reduction into [min_int .. max_int]. *)
Definition wrap (x : Z) : Z := (x + 2 ^ 63) mod modulus - 2 ^ 63.

Definition add (a b : Z) : Z := wrap (a + b).
Definition sub (a b : Z) : Z := wrap (a - b).
Definition mul (a b : Z) : Z := wrap (a * b).

Definition in_range (x : Z) : Prop := min_int <= x <= max_int.

End Int64.

Module Partition.

(** ** common/types *)

Abbreviation ZoneName := string.
Abbreviation ZoneStatus := Z.

Definition ZoneDrainStatusInvalid : ZoneStatus := 0.
Definition ZoneDrainStatusHealthy : ZoneStatus := 1.
Definition ZoneDrainStatusDrained : ZoneStatus := 2.

Record ZonePartition : Type := mkZonePartition {
  Name : ZoneName;
  Status : ZoneStatus
}.

(** The zero value of [ZonePartition], what a failed map index yields. *)
Definition ZonePartition_zero : ZonePartition :=
  {| Name := ""; Status := ZoneDrainStatusInvalid |}.

(** Go's two-valued map index [v, ok := m[k]]. *)
Definition map_index (m : gmap string ZonePartition) (k : string)
  : ZonePartition * bool :=
  match m !! k with
  | Some v => (v, true)
  | None => (ZonePartition_zero, false)
  end.

(** ** JSON values, as [encoding/json] sees the hint *)

#[warnings="-register-all"]
Inductive json : Type :=
| JNull
| JBool (b : bool)
| JNumber (literal : string)
| JString (s : string)
| JArray (elems : list json)
| JObject (members : list (string * json)).

(** [types.PartitionConfig] is a byte string; the partitioner only ever looks
    at it through [json.Unmarshal].  The hint is therefore represented by what
    the JSON scanner makes of the bytes: [None] when they are not a valid JSON
    text, [Some v] for the value they denote (object members in textual order,
    duplicates kept). *)
Definition PartitionConfig : Type := option json.

(** ** common/partition/default-partitioner.go *)

Record DefaultPartitionConfig : Type := mkDefaultPartitionConfig {
  WorkflowStartZone : ZoneName;   (* json:"wf-start-zone" *)
  RunID : string                  (* json:"run-id" *)
}.

Definition DefaultPartitionConfig_zero : DefaultPartitionConfig :=
  {| WorkflowStartZone := ""; RunID := "" |}.

(** What the handler reads of a domain-cache entry: [GetInfo().Name] and
    [GetInfo().ZoneConfig]. *)
Record DomainInfo : Type := mkDomainInfo {
  DomainName : string;
  ZoneConfig : gmap string ZonePartition
}.

(** [cache.DomainCache], the two lookups used here. *)
Record DomainCache : Type := mkDomainCache {
  GetDomain : string -> result DomainInfo;
  GetDomainByID : string -> result DomainInfo
}.

(** [persistence.GlobalZoneDrains], the read side.  The handler is verified
    against the interface; the only implementation in the repository,
    [globalZoneDrainsImpl], is an unimplemented placeholder. *)
Record GlobalZoneDrains : Type := mkGlobalZoneDrains {
  GetClusterDrains : result (gmap string ZonePartition)
}.

Record Config : Type := mkConfig {
  zonalPartitioningEnabled : string -> bool
}.

Record DefaultZoneStateHandler : Type := mkDefaultZoneStateHandler {
  domainCache : DomainCache;
  globalZoneDrains : GlobalZoneDrains;
  allZonesList : list ZoneName;
  config : Config
}.

(** The per-domain layer answers exactly when it holds a drained entry. *)
Definition domainDrained (info : DomainInfo) (zone : ZoneName) : Prop :=
  exists cfg, ZoneConfig info !! zone = Some cfg /\ Status cfg = ZoneDrainStatusDrained.

(** [DefaultZoneStateHandler.Get] *)
Definition Get (z : DefaultZoneStateHandler) (domain : string) (zone : ZoneName)
  : result ZonePartition :=
  if negb (zonalPartitioningEnabled (config z) domain) then
    ROk {| Name := zone; Status := ZoneDrainStatusHealthy |}
  else
    match GetDomain (domainCache z) domain with
    | RErr err => RErr (Errorf "could not resolve domain in zone handler" err)
    | ROk domainData =>
        let '(cfg, ok) := map_index (ZoneConfig domainData) zone in
        if ok && (Status cfg =? ZoneDrainStatusDrained) then ROk cfg
        else
          match GetClusterDrains (globalZoneDrains z) with
          | RErr err =>
              RErr (Errorf "could not resolve global drains in zone handler" err)
          | ROk drains =>
              let '(globalCfg, ok) := map_index drains zone in
              if ok then ROk globalCfg
              else ROk {| Name := zone; Status := ZoneDrainStatusHealthy |}
          end
    end.

(** [DefaultZoneStateHandler.GetByDomainID] *)
Definition GetByDomainID (z : DefaultZoneStateHandler) (domainID : string)
  (zone : ZoneName) : result ZonePartition :=
  match GetDomainByID (domainCache z) domainID with
  | RErr err => RErr (Errorf "could not resolve domain in zone handler" err)
  | ROk domain => Get z (DomainName domain) zone
  end.

(** The [for _, zone := range z.allZonesList] loop of [ListAll], with the
    slice [out] built so far. *)
Fixpoint ListAll_loop (z : DefaultZoneStateHandler) (domainID : string)
  (zones : list ZoneName) (out : list ZonePartition)
  : result (list ZonePartition) :=
  match zones with
  | [] => ROk out
  | zone :: rest =>
      match Get z domainID zone with
      | RErr err => RErr (Errorf "failed to get zone during listing" err)
      | ROk zoneData => ListAll_loop z domainID rest (out ++ [zoneData])
      end
  end.

(** [DefaultZoneStateHandler.ListAll] *)
Definition ListAll (z : DefaultZoneStateHandler) (domainID : string)
  : result (list ZonePartition) :=
  ListAll_loop z domainID (allZonesList z) [].

(** The [ZoneState] interface held by the partitioner in [drainState]. *)
Record ZoneState : Type := mkZoneState {
  zs_Get : string -> ZoneName -> result ZonePartition;
  zs_GetByDomainID : string -> ZoneName -> result ZonePartition;
  zs_ListAll : string -> result (list ZonePartition)
}.

(** [DefaultZoneStateHandler] implements [ZoneState]. *)
Definition handlerZoneState (z : DefaultZoneStateHandler) : ZoneState :=
  {| zs_Get := Get z;
     zs_GetByDomainID := GetByDomainID z;
     zs_ListAll := ListAll z |}.

Record DefaultPartitioner : Type := mkDefaultPartitioner {
  drainState : ZoneState
}.

(** [DefaultPartitioner.IsDrained] *)
Definition IsDrained (r : DefaultPartitioner) (domain : string) (zone : ZoneName)
  : result bool :=
  match zs_Get (drainState r) domain zone with
  | RErr err => RErr (Errorf "could not determine if drained" err)
  | ROk state => ROk (Status state =? ZoneDrainStatusDrained)
  end.

(** [DefaultPartitioner.IsDrainedByDomainID] *)
Definition IsDrainedByDomainID (r : DefaultPartitioner) (domainID : string)
  (zone : ZoneName) : result bool :=
  match zs_GetByDomainID (drainState r) domainID zone with
  | RErr err => RErr (Errorf "could not determine if drained" err)
  | ROk state => ROk (Status state =? ZoneDrainStatusDrained)
  end.

(** The first loop of [pickZoneAfterDrain]: names of the healthy zones, in the
    order of [zones], appended to [availableZones]. *)
Fixpoint availableZones_loop (zones : list ZonePartition)
  (availableZones : list ZoneName) : list ZoneName :=
  match zones with
  | [] => availableZones
  | zone :: rest =>
      if Status zone =? ZoneDrainStatusHealthy
      then availableZones_loop rest (availableZones ++ [Name zone])
      else availableZones_loop rest availableZones
  end.

(** The names of the healthy zones of a listing, in its order. *)
Definition healthyZones (zones : list ZonePartition) : list ZoneName :=
  map Name (filter (fun zone => Status zone = ZoneDrainStatusHealthy) zones).

(** Conversion to [uint32]. *)
Definition uint32 (x : Z) : Z := x mod 2 ^ 32.

Section Partitioner.

(** [farm.Hash32] of github.com/dgryski/go-farm, on the bytes of a string;
    its value is read as a [uint32]. *)
Variable Hash32 : string -> Z.

(** The name folding under which [encoding/json] matches an object key
    against a struct field name when no field matches exactly. *)
Variable equalFold : string -> string -> bool.

(** [pickZoneAfterDrain].  [hashv] is a [uint32]; [int] is the 64-bit
    integer of the platforms the service runs on, so [int(hashv)] keeps the
    value; [%] is Go's truncated remainder, which panics on a zero divisor;
    indexing outside a slice panics. *)
Definition pickZoneAfterDrain (zones : list ZonePartition)
  (wfConfig : DefaultPartitionConfig) : outcome ZoneName :=
  let availableZones := availableZones_loop zones [] in
  let hashv := uint32 (Hash32 (RunID wfConfig)) in
  let len := Z.of_nat (length availableZones) in
  if len =? 0 then Panic "runtime error: integer divide by zero"
  else
    match availableZones !! Z.to_nat (Z.rem hashv len) with
    | Some zone => Ok zone
    | None => Panic "runtime error: index out of range"
    end.

(** *** [json.Unmarshal] into [DefaultPartitionConfig] *)

Inductive field : Type := FWorkflowStartZone | FRunID.

(** Field selection for an object key: an exact match on the tag name first,
    a match under folding otherwise, fields taken in declaration order. *)
Definition field_of_key (key : string) : option field :=
  if String.eqb key "wf-start-zone" then Some FWorkflowStartZone
  else if String.eqb key "run-id" then Some FRunID
  else if equalFold key "wf-start-zone" then Some FWorkflowStartZone
  else if equalFold key "run-id" then Some FRunID
  else None.

(** Storing a JSON value into a string field: a string is stored, [null]
    leaves the field alone, anything else records a type error (the first
    one is kept) and decoding goes on. *)
Definition store_field (f : field) (v : json)
  (st : DefaultPartitionConfig * option error)
  : DefaultPartitionConfig * option error :=
  let '(d, saved) := st in
  match v with
  | JString s =>
      match f with
      | FWorkflowStartZone =>
          ({| WorkflowStartZone := s; RunID := RunID d |}, saved)
      | FRunID =>
          ({| WorkflowStartZone := WorkflowStartZone d; RunID := s |}, saved)
      end
  | JNull => st
  | _ =>
      (d, match saved with Some e => Some e | None => Some UnmarshalTypeError end)
  end.

(** Members are decoded in textual order; a key that selects no field is
    skipped together with its value. *)
Fixpoint decode_members (members : list (string * json))
  (st : DefaultPartitionConfig * option error)
  : DefaultPartitionConfig * option error :=
  match members with
  | [] => st
  | (key, v) :: rest =>
      match field_of_key key with
      | Some f => decode_members rest (store_field f v st)
      | None => decode_members rest st
      end
  end.

Definition json_Unmarshal (data : PartitionConfig) (v : DefaultPartitionConfig)
  : DefaultPartitionConfig * option error :=
  match data with
  | None => (v, Some SyntaxError)
  | Some JNull => (v, None)
  | Some (JObject members) => decode_members members (v, None)
  | Some _ => (v, Some UnmarshalTypeError)
  end.

(** [DefaultPartitioner.GetTaskZone] *)
Definition GetTaskZone (r : DefaultPartitioner) (DomainID : string)
  (key : PartitionConfig) : outcome ZoneName :=
  let '(partitionData, err) := json_Unmarshal key DefaultPartitionConfig_zero in
  match err with
  | Some err => Err (Errorf "failed to decode partition config" err)
  | None =>
      match IsDrained r DomainID (WorkflowStartZone partitionData) with
      | RErr err => Err (Errorf "failed to determine if a zone is drained" err)
      | ROk isDrained =>
          if isDrained then
            match zs_ListAll (drainState r) DomainID with
            | RErr err => Err (Errorf "failed to list all zones" err)
            | ROk zones => pickZoneAfterDrain zones partitionData
            end
          else Ok (WorkflowStartZone partitionData)
      end
  end.

End Partitioner.

(** A JSON value that a string field takes without complaint: a string, or
    [null], which leaves the field alone. *)
Definition fits_string_field (v : json) : Prop :=
  v = JNull \/ exists s, v = JString s.

(** The hints that [json.Unmarshal] decodes without error: [null], or an
    object whose members either select no field or carry a value that fits. *)
Definition hint_decodes (equalFold : string -> string -> bool)
  (key : PartitionConfig) : Prop :=
  key = Some JNull \/
  exists members,
    key = Some (JObject members) /\
    Forall (fun member => field_of_key equalFold (fst member) = None \/
                          fits_string_field (snd member)) members.

(** *** Deployments used in the examples below *)

(** A domain cache that knows every domain, with the given zone
    configuration. *)
Definition cacheOf (zc : gmap string ZonePartition) : DomainCache :=
  {| GetDomain := fun name => ROk {| DomainName := name; ZoneConfig := zc |};
     GetDomainByID := fun id => ROk {| DomainName := id; ZoneConfig := zc |} |}.

(** Zones [a], [b], [c]; zonal partitioning switched off. *)
Definition gateOff : DefaultZoneStateHandler :=
  {| domainCache := cacheOf ∅;
     globalZoneDrains := {| GetClusterDrains := ROk ∅ |};
     allZonesList := ["a"; "b"; "c"];
     config := {| zonalPartitioningEnabled := fun _ => false |} |}.

(** Zones [a], [b]; zonal partitioning on; both zones drained in the global
    table. *)
Definition allDrained : DefaultZoneStateHandler :=
  {| domainCache := cacheOf ∅;
     globalZoneDrains :=
       {| GetClusterDrains :=
            ROk (<["a" := {| Name := "a"; Status := ZoneDrainStatusDrained |}]>
                   (<["b" := {| Name := "b"; Status := ZoneDrainStatusDrained |}]> ∅)) |};
     allZonesList := ["a"; "b"];
     config := {| zonalPartitioningEnabled := fun _ => true |} |}.

(** Zones [a], [b], [c]; zonal partitioning on; [b] drained in the global
    table, and a per-domain entry calling [b] healthy. *)
Definition oneDrained : DefaultZoneStateHandler :=
  {| domainCache :=
       cacheOf (<["b" := {| Name := "b"; Status := ZoneDrainStatusHealthy |}]> ∅);
     globalZoneDrains :=
       {| GetClusterDrains :=
            ROk (<["b" := {| Name := "b"; Status := ZoneDrainStatusDrained |}]> ∅) |};
     allZonesList := ["a"; "b"; "c"];
     config := {| zonalPartitioningEnabled := fun _ => true |} |}.

Definition partitionerOf (z : DefaultZoneStateHandler) : DefaultPartitioner :=
  {| drainState := handlerZoneState z |}.

End Partition.

Module Matching.

(** ** service/matching/taskWriter.go *)

(** A Go channel that only ever carries the close signal. *)
Inductive signal : Type := Open | Closed.

Inductive CreateTasksResponse : Type := mkCreateTasksResponse.

Record writeTaskResponse : Type := mkWriteTaskResponse {
  err : option error;
  persistenceResponse : option CreateTasksResponse
}.

(** [execution] and [taskInfo] are opaque to the writer; [responseCh] is the
    identity of the channel the caller made for this request. *)
Record writeTaskRequest : Type := mkWriteTaskRequest {
  execution : string;
  taskInfo : string;
  responseCh : nat
}.

Record CreateTaskInfo : Type := mkCreateTaskInfo {
  TaskID : Z;
  Execution : string;
  Data : string
}.

Record taskIDBlock : Type := mkTaskIDBlock {
  start : Z;
  end_ : Z
}.

Record taskListState : Type := mkTaskListState {
  rangeID : Z;
  ackLevel : Z
}.

Record taskListConfig : Type := mkTaskListConfig {
  RangeSize : Z;
  MaxTaskBatchSize : Z;
  OutstandingTaskAppendsThreshold : Z
}.

(** The collaborators of the writer, as seen from it.
    - [leaseOutcome n]: how the [n]-th retried lease renewal ends ([None]:
      renewed);
    - [createTasksOutcome n]: how the [n]-th [CreateTasks] call ends ([None]:
      the batch is committed);
    - [handleErr]: the task-list manager's hook, giving the error handed on
      and whether the hook shut the manager down. *)
Record Collaborators : Type := mkCollaborators {
  leaseOutcome : nat -> option error;
  createTasksOutcome : nat -> option error;
  handleErr : option error -> option error * bool
}.

(** Modelled from the spec: the [taskListDB] of the task-list manager (its
    [RangeID], [RenewLease] and [CreateTasks]).  It caches the last observed
    [range-id] and [ack-level]; a successful renewal is a conditional
    increment of [range-id]; [create-tasks] is all-or-nothing.  [committed]
    is the content of the task store, in commit order. *)
Record taskListDB : Type := mkTaskListDB {
  db_rangeID : Z;
  db_ackLevel : Z;
  committed : list CreateTaskInfo;
  leaseCalls : nat;
  createCalls : nat
}.

Record taskWriter : Type := mkTaskWriter {
  db : taskListDB;
  config : taskListConfig;
  ackManagerLevel : Z;
  appendCh : list writeTaskRequest;
  appendChCap : nat;
  w_taskIDBlock : taskIDBlock;
  maxReadLevel : Z;
  stopped : Z;
  stopCh : signal
}.

Definition set_db (d : taskListDB) (w : taskWriter) : taskWriter :=
  mkTaskWriter d (config w) (ackManagerLevel w) (appendCh w) (appendChCap w)
    (w_taskIDBlock w) (maxReadLevel w) (stopped w) (stopCh w).

Definition set_ackManagerLevel (a : Z) (w : taskWriter) : taskWriter :=
  mkTaskWriter (db w) (config w) a (appendCh w) (appendChCap w)
    (w_taskIDBlock w) (maxReadLevel w) (stopped w) (stopCh w).

Definition set_appendCh (q : list writeTaskRequest) (w : taskWriter) : taskWriter :=
  mkTaskWriter (db w) (config w) (ackManagerLevel w) q (appendChCap w)
    (w_taskIDBlock w) (maxReadLevel w) (stopped w) (stopCh w).

Definition set_taskIDBlock (b : taskIDBlock) (w : taskWriter) : taskWriter :=
  mkTaskWriter (db w) (config w) (ackManagerLevel w) (appendCh w) (appendChCap w)
    b (maxReadLevel w) (stopped w) (stopCh w).

Definition set_maxReadLevel (l : Z) (w : taskWriter) : taskWriter :=
  mkTaskWriter (db w) (config w) (ackManagerLevel w) (appendCh w) (appendChCap w)
    (w_taskIDBlock w) l (stopped w) (stopCh w).

Definition set_stopped (s : Z) (c : signal) (w : taskWriter) : taskWriter :=
  mkTaskWriter (db w) (config w) (ackManagerLevel w) (appendCh w) (appendChCap w)
    (w_taskIDBlock w) (maxReadLevel w) s c.

(** A method of the writer: it runs on the writer's state and either returns
    a value and the new state, or panics. *)
Inductive exec (A : Type) : Type :=
| Done (a : A) (w : taskWriter)
| Crashed (msg : string).
Arguments Done {A} a w.
Arguments Crashed {A} msg.

Definition M (A : Type) : Type := taskWriter -> exec A.

Definition ret {A} (a : A) : M A := fun w => Done a w.

Definition bind {A B} (m : M A) (k : A -> M B) : M B :=
  fun w => match m w with
           | Done a w' => k a w'
           | Crashed msg => Crashed msg
           end.

Definition get : M taskWriter := fun w => Done w w.
Definition modify (f : taskWriter -> taskWriter) : M unit := fun w => Done tt (f w).
Definition panic {A} (msg : string) : M A := fun _ => Crashed msg.

Notation "x <- m ;; k" := (bind m (fun x => k))
  (at level 100, m at next level, right associativity).
Notation "m ;;; k" := (bind m (fun _ => k))
  (at level 100, right associativity).

(** Modelled from the spec: [rangeIDToTaskIDBlock], defined with the task-list
    manager.  The block of [range-id = k] is [(k-1)*R + 1 .. k*R], in 64-bit
    arithmetic. *)
Definition rangeIDToTaskIDBlock (rangeID rangeSize : Z) : taskIDBlock :=
  {| start := Int64.add (Int64.mul (Int64.sub rangeID 1) rangeSize) 1;
     end_ := Int64.mul rangeID rangeSize |}.

(** [newTaskWriter]: [make(chan, n)] panics on a negative size. *)
Definition newTaskWriter (d : taskListDB) (c : taskListConfig) : outcome taskWriter :=
  if OutstandingTaskAppendsThreshold c <? 0
  then Panic "makechan: size out of range"
  else Ok {| db := d;
             config := c;
             ackManagerLevel := 0;
             appendCh := [];
             appendChCap := Z.to_nat (OutstandingTaskAppendsThreshold c);
             w_taskIDBlock := {| start := 0; end_ := 0 |};
             maxReadLevel := 0;
             stopped := 0;
             stopCh := Open |}.

(** [taskWriter.Stop]: [close] of a closed channel panics. *)
Definition Stop : M unit := fun w =>
  if stopped w =? 0 then
    match stopCh w with
    | Open => Done tt (set_stopped 1 Closed w)
    | Closed => Crashed "close of closed channel"
    end
  else Done tt w.

Definition isStopped (w : taskWriter) : bool := stopped w =? 1.

(** What a call of [appendTask] has done once it is past admission: it has
    returned, or it has put its request on [appendCh] and is parked in the
    inner [select]. *)
Inductive admission : Type :=
| Returned (r : option CreateTasksResponse) (e : option error)
| Parked (ch : nat).

(** [taskWriter.appendTask] up to the inner [select].  [ch] is the response
    channel the call makes.  The send on the buffered [appendCh] in a [select]
    with a [default] branch goes through exactly when the buffer has room.
    This is the channel of a threshold of at least one.  (With a threshold
    of zero the channel is unbuffered and a send goes through when the loop
    is waiting on the other side; here such a send is always refused, and
    nothing is stated of [appendTask] for that case.) *)
Definition appendTask (execution taskInfo : string) (ch : nat) : M admission :=
  fun w =>
    if isStopped w then Done (Returned None (Some errShutdown)) w
    else
      let req := {| execution := execution; taskInfo := taskInfo; responseCh := ch |} in
      if (length (appendCh w) <? appendChCap w)%nat
      then Done (Parked ch) (set_appendCh (appendCh w ++ [req]) w)
      else Done (Returned None
                   (Some (ServiceBusyError "Too many outstanding appends to the TaskList"))) w.

(** The inner [select] of [appendTask]: the parked call returns the response
    sent on its channel, or [errShutdown] once the stop channel is closed. *)
Inductive appendTask_returns (w : taskWriter) (sent : list (nat * writeTaskResponse))
  (ch : nat) : option CreateTasksResponse -> option error -> Prop :=
| returns_response r :
    In (ch, r) sent ->
    appendTask_returns w sent ch (persistenceResponse r) (err r)
| returns_shutdown :
    stopCh w = Closed ->
    appendTask_returns w sent ch None (Some errShutdown).

Definition GetMaxReadLevel (w : taskWriter) : Z := maxReadLevel w.

Section Writer.

Variable env : Collaborators.

(** Modelled from the spec: [taskListDB.RenewLease]. *)
Definition RenewLease (d : taskListDB) : result taskListState * taskListDB :=
  match leaseOutcome env (leaseCalls d) with
  | Some e =>
      (RErr e,
       mkTaskListDB (db_rangeID d) (db_ackLevel d) (committed d)
         (S (leaseCalls d)) (createCalls d))
  | None =>
      let r := Int64.add (db_rangeID d) 1 in
      (ROk {| rangeID := r; ackLevel := db_ackLevel d |},
       mkTaskListDB r (db_ackLevel d) (committed d)
         (S (leaseCalls d)) (createCalls d))
  end.

(** Modelled from the spec: [taskListDB.CreateTasks]. *)
Definition CreateTasks (tasks : list CreateTaskInfo) (d : taskListDB)
  : result CreateTasksResponse * taskListDB :=
  match createTasksOutcome env (createCalls d) with
  | Some e =>
      (RErr e,
       mkTaskListDB (db_rangeID d) (db_ackLevel d) (committed d)
         (leaseCalls d) (S (createCalls d)))
  | None =>
      (ROk mkCreateTasksResponse,
       mkTaskListDB (db_rangeID d) (db_ackLevel d) (committed d ++ tasks)
         (leaseCalls d) (S (createCalls d)))
  end.

(** Modelled from the spec: what [taskListManagerImpl.Stop] does to the
    writer it owns. *)
Definition tlMgr_Stop : M unit := Stop.

(** [taskWriter.renewLeaseWithRetry].  The retry loop of [throttleRetry.Do]
    repeats [db.RenewLease] until it succeeds or gives up; [leaseOutcome]
    is the outcome of the loop as a whole. *)
Definition renewLeaseWithRetry : M (result taskListState) :=
  w <- get ;;
  let '(r, d) := RenewLease (db w) in
  modify (set_db d) ;;;
  match r with
  | RErr e => tlMgr_Stop ;;; ret (RErr e)
  | ROk newState => ret (ROk newState)
  end.

(** [taskWriter.allocTaskIDBlock] *)
Definition allocTaskIDBlock (prevBlockEnd : Z) : M (result taskIDBlock) :=
  w <- get ;;
  let currBlock := rangeIDToTaskIDBlock (db_rangeID (db w)) (RangeSize (config w)) in
  if negb (end_ currBlock =? prevBlockEnd) then ret (RErr InvalidStateError)
  else
    r <- renewLeaseWithRetry ;;
    match r with
    | RErr e => ret (RErr e)
    | ROk state =>
        ret (ROk (rangeIDToTaskIDBlock (rangeID state) (RangeSize (config w))))
    end.

(** The loop of [allocTaskIDs], with [count - i] iterations to go; [res]
    holds the entries [result[0..i)] written so far. *)
Fixpoint allocTaskIDs_loop (togo : nat) (res : list Z) : M (result (list Z)) :=
  match togo with
  | O => ret (ROk res)
  | S togo' =>
      w <- get ;;
      r <- (if start (w_taskIDBlock w) >? end_ (w_taskIDBlock w) then
              nb <- allocTaskIDBlock (end_ (w_taskIDBlock w)) ;;
              match nb with
              | RErr e => ret (RErr e)
              | ROk newBlock => modify (set_taskIDBlock newBlock) ;;; ret (ROk tt)
              end
            else ret (ROk tt)) ;;
      match r with
      | RErr e => ret (RErr e)
      | ROk _ =>
          w <- get ;;
          let id := start (w_taskIDBlock w) in
          modify (set_taskIDBlock
                    {| start := Int64.add id 1; end_ := end_ (w_taskIDBlock w) |}) ;;;
          allocTaskIDs_loop togo' (res ++ [id])
      end
  end.

(** [taskWriter.allocTaskIDs]; [count] is the length of a batch. *)
Definition allocTaskIDs (count : nat) : M (result (list Z)) :=
  allocTaskIDs_loop count [].

(** [taskWriter.Start], up to the launch of the loop. *)
Definition Start : M (option error) :=
  r <- renewLeaseWithRetry ;;
  match r with
  | RErr e => ret (Some e)
  | ROk state =>
      modify (set_ackManagerLevel (ackLevel state)) ;;;
      w <- get ;;
      let block := rangeIDToTaskIDBlock (rangeID state) (RangeSize (config w)) in
      modify (set_taskIDBlock block) ;;;
      modify (set_maxReadLevel (Int64.sub (start block) 1)) ;;;
      ret None
  end.

(** The loop of [getWriteBatch]: [togo] iterations left, each a receive from
    [appendCh] that does not block. *)
Fixpoint getWriteBatch_loop (togo : nat) (reqs : list writeTaskRequest)
  : M (list writeTaskRequest) :=
  match togo with
  | O => ret reqs
  | S togo' =>
      w <- get ;;
      match appendCh w with
      | req :: rest =>
          modify (set_appendCh rest) ;;; getWriteBatch_loop togo' (reqs ++ [req])
      | [] => ret reqs
      end
  end.

(** [taskWriter.getWriteBatch]: [i] runs from [0] while [i < MaxTaskBatchSize()]. *)
Definition getWriteBatch (reqs : list writeTaskRequest) : M (list writeTaskRequest) :=
  w <- get ;;
  getWriteBatch_loop (Z.to_nat (MaxTaskBatchSize (config w))) reqs.

(** [taskWriter.sendWriteResponse]: the sends, in order, as pairs of the
    channel and the response.  The response channels are unbuffered, so each
    send waits for its caller.  A caller waits for its response unless the
    stop channel is closed, so with the stop channel open every send goes
    through, as here; with the stop channel closed a caller may have left and
    the send, and with it the loop, may wait for ever, which is not part of
    the model. *)
Definition sendWriteResponse (reqs : list writeTaskRequest) (e : option error)
  (pr : option CreateTasksResponse) : list (nat * writeTaskResponse) :=
  map (fun req => (responseCh req, {| err := e; persistenceResponse := pr |})) reqs.

(** The [for i, req := range reqs] loop of [taskWriterLoop]: it builds
    [tasks] and leaves [taskIDs[i]] of the last request in [maxReadLevel].
    [None] is an index out of range. *)
Fixpoint buildTasks (reqs : list writeTaskRequest) (taskIDs : list Z) (i : nat)
  (tasks : list CreateTaskInfo) (maxReadLevel : Z)
  : option (list CreateTaskInfo * Z) :=
  match reqs with
  | [] => Some (tasks, maxReadLevel)
  | req :: rest =>
      match taskIDs !! i with
      | None => None
      | Some id =>
          buildTasks rest taskIDs (S i)
            (tasks ++ [{| TaskID := id; Execution := execution req; Data := taskInfo req |}])
            id
      end
  end.

(** The [case request := <-w.appendCh] branch of [taskWriterLoop]; the value
    is the list of responses sent. *)
Definition writeBatch (request : writeTaskRequest)
  : M (list (nat * writeTaskResponse)) :=
  reqs <- getWriteBatch [request] ;;
  let batchSize := length reqs in
  r <- allocTaskIDs batchSize ;;
  match r with
  | RErr e => ret (sendWriteResponse reqs (Some e) None)
  | ROk taskIDs =>
      match buildTasks reqs taskIDs 0 [] 0 with
      | None => panic "runtime error: index out of range"
      | Some (tasks, maxReadLevel) =>
          w <- get ;;
          let '(cr, d) := CreateTasks tasks (db w) in
          modify (set_db d) ;;;
          let '(r, e) := match cr with
                         | ROk r => (Some r, None)
                         | RErr e => (None, Some e)
                         end in
          let '(e, stops) := handleErr env e in
          (if stops : bool then tlMgr_Stop else ret tt) ;;;
          (if maxReadLevel >? 0 then modify (set_maxReadLevel maxReadLevel)
           else ret tt) ;;;
          ret (sendWriteResponse reqs e r)
      end
  end.

(** *** The writer and its callers *)

Inductive loopState : Type := NotStarted | Running | Exited.

(** The writer, the state of the goroutine running [taskWriterLoop], and the
    responses sent so far. *)
Record system : Type := mkSystem {
  writer : taskWriter;
  loop : loopState;
  sent : list (nat * writeTaskResponse)
}.

(** What can happen next: a caller goes through the admission of
    [appendTask], somebody calls [Stop], or the [select] of
    [taskWriterLoop] takes one of its two branches. *)
Inductive event : Type :=
| EvAppend (execution taskInfo : string) (ch : nat)
| EvStop
| EvLoopAppendCh
| EvLoopStopCh.

(** One event.  A branch of the [select] that is not ready leaves the loop
    waiting; the [stopCh] branch ends the loop. *)
Definition step (ev : event) (s : system) : outcome system :=
  match ev with
  | EvAppend e t ch =>
      match appendTask e t ch (writer s) with
      | Done _ w => Ok (mkSystem w (loop s) (sent s))
      | Crashed msg => Panic msg
      end
  | EvStop =>
      match Stop (writer s) with
      | Done _ w => Ok (mkSystem w (loop s) (sent s))
      | Crashed msg => Panic msg
      end
  | EvLoopAppendCh =>
      match loop s, appendCh (writer s) with
      | Running, request :: rest =>
          match writeBatch request (set_appendCh rest (writer s)) with
          | Done out w => Ok (mkSystem w Running (sent s ++ out))
          | Crashed msg => Panic msg
          end
      | _, _ => Ok s
      end
  | EvLoopStopCh =>
      match loop s, stopCh (writer s) with
      | Running, Closed => Ok (mkSystem (writer s) Exited (sent s))
      | _, _ => Ok s
      end
  end.

Fixpoint run (evs : list event) (s : system) : outcome system :=
  match evs with
  | [] => Ok s
  | ev :: rest =>
      match step ev s with
      | Ok s' => run rest s'
      | Err e => Err e
      | Panic msg => Panic msg
      end
  end.

(** [Start] followed by [go w.taskWriterLoop()]. *)
Definition started (w0 : taskWriter) : outcome system :=
  match Start w0 with
  | Done None w => Ok (mkSystem w Running [])
  | Done (Some e) _ => Err e
  | Crashed msg => Panic msg
  end.

(** Successive calls of [allocTaskIDs], with the given counts. *)
Fixpoint allocTaskIDs_calls (counts : list nat) : M (list (result (list Z))) :=
  match counts with
  | [] => ret []
  | count :: rest =>
      r <- allocTaskIDs count ;;
      rs <- allocTaskIDs_calls rest ;;
      ret (r :: rs)
  end.

End Writer.

(** The ids handed out by the calls that succeeded, in order. *)
Fixpoint successes (rs : list (result (list Z))) : list Z :=
  match rs with
  | [] => []
  | ROk ids :: rest => ids ++ successes rest
  | RErr _ :: rest => successes rest
  end.

(** *** Invariants of the writer *)

(** A method call returns, with a result and state that satisfy [Q]. *)
Definition returns {A} (r : exec A) (Q : A -> taskWriter -> Prop) : Prop :=
  match r with
  | Done a w => Q a w
  | Crashed _ => False
  end.

(** A method never resets the [stopped] flag. *)
Definition keeps_stopped {A} (m : M A) : Prop :=
  forall w a w', m w = Done a w' -> stopped w = 1 -> stopped w' = 1.

(** The [stopped] flag and the stop channel go together. *)
Definition stop_consistent (w : taskWriter) : Prop :=
  (stopped w = 0 /\ stopCh w = Open) \/ (stopped w = 1 /\ stopCh w = Closed).

(** The writer's block is the block of the range-id its [db] holds, and the
    next id to hand out lies in the block or just past its end. *)
Definition block_inv (w : taskWriter) : Prop :=
  0 < RangeSize (config w) /\
  1 <= db_rangeID (db w) /\
  end_ (w_taskIDBlock w) = db_rangeID (db w) * RangeSize (config w) /\
  (db_rangeID (db w) - 1) * RangeSize (config w) + 1 <= start (w_taskIDBlock w) /\
  start (w_taskIDBlock w) <= end_ (w_taskIDBlock w) + 1.

(** Handing out [n] more ids stays within the 64-bit integers. *)
Definition headroom (n : nat) (w : taskWriter) : Prop :=
  (db_rangeID (db w) + Z.of_nat n) * RangeSize (config w) < Int64.max_int.

(** What [allocTaskIDs] and the lease renewal leave alone. *)
Definition alloc_frame (w w' : taskWriter) : Prop :=
  config w' = config w /\
  appendCh w' = appendCh w /\
  appendChCap w' = appendChCap w /\
  maxReadLevel w' = maxReadLevel w /\
  committed (db w') = committed (db w) /\
  createCalls (db w') = createCalls (db w).

(** [e] is an error of a lease renewal. *)
Definition lease_error (env : Collaborators) (e : error) : Prop :=
  exists i, leaseOutcome env i = Some e.

(** The invariant of a running writer with [budget] requests still to come
    (those on [appendCh] not counted): the watermark is below the next id. *)
Definition writer_inv (budget : nat) (w : taskWriter) : Prop :=
  block_inv w /\ stop_consistent w /\
  maxReadLevel w < start (w_taskIDBlock w) /\
  headroom (length (appendCh w) + budget) w.

(** The task store as readers may rely on it: ids strictly increasing in
    commit order, none above the watermark. *)
Definition store_inv (w : taskWriter) : Prop :=
  StronglySorted Z.lt (map TaskID (committed (db w))) /\
  Forall (fun id => id <= maxReadLevel w) (map TaskID (committed (db w))).

(** The admission queue holds no more than its capacity. *)
Definition queue_bounded (w : taskWriter) : Prop :=
  (length (appendCh w) <= appendChCap w)%nat.

(** *** A task list used in the examples below *)

Definition freshDB : taskListDB :=
  {| db_rangeID := 0; db_ackLevel := 0; committed := [];
     leaseCalls := 0; createCalls := 0 |}.

(** Blocks of ten ids, batches of at most two, four outstanding appends. *)
Definition smallConfig : taskListConfig :=
  {| RangeSize := 10; MaxTaskBatchSize := 2; OutstandingTaskAppendsThreshold := 4 |}.

(** A store where leases are granted and every commit fails. *)
Definition failingStore : Collaborators :=
  {| leaseOutcome := fun _ => None;
     createTasksOutcome := fun _ => Some (ExternalError "persistence unavailable");
     handleErr := fun e => (e, false) |}.

(** A store where leases are granted and every commit succeeds. *)
Definition workingStore : Collaborators :=
  {| leaseOutcome := fun _ => None;
     createTasksOutcome := fun _ => None;
     handleErr := fun e => (e, false) |}.

End Matching.

(** * Properties *)

Module Int64Facts.

Lemma wrap_small x : Int64.in_range x -> Int64.wrap x = x.
Proof.
  unfold Int64.in_range, Int64.wrap, Int64.modulus, Int64.min_int, Int64.max_int.
  intros H. rewrite Z.mod_small; lia.
Qed.

Lemma wrap_in_range x : Int64.in_range (Int64.wrap x).
Proof.
  unfold Int64.in_range, Int64.wrap, Int64.modulus, Int64.min_int, Int64.max_int.
  pose proof (Z.mod_pos_bound (x + 2 ^ 63) (2 ^ 64) ltac:(lia)). lia.
Qed.

End Int64Facts.

Module PartitionFacts.
Import Partition.

(** ** The zone-state handler *)

Lemma map_index_Some (m : gmap string ZonePartition) k v :
  m !! k = Some v -> map_index m k = (v, true).
Proof. unfold map_index. intros ->. reflexivity. Qed.

Lemma map_index_None (m : gmap string ZonePartition) k :
  m !! k = None -> map_index m k = (ZonePartition_zero, false).
Proof. unfold map_index. intros ->. reflexivity. Qed.

Lemma Get_disabled z domain zone :
  zonalPartitioningEnabled (config z) domain = false ->
  Get z domain zone = ROk {| Name := zone; Status := ZoneDrainStatusHealthy |}.
Proof. unfold Get. intros ->. reflexivity. Qed.

Lemma Get_domain_drained z domain zone info cfg :
  zonalPartitioningEnabled (config z) domain = true ->
  GetDomain (domainCache z) domain = ROk info ->
  ZoneConfig info !! zone = Some cfg ->
  Status cfg = ZoneDrainStatusDrained ->
  Get z domain zone = ROk cfg.
Proof.
  unfold Get. intros -> -> Hl Hs. cbn.
  rewrite (map_index_Some _ _ _ Hl), Hs. reflexivity.
Qed.

Lemma Get_falls_through z domain zone info :
  zonalPartitioningEnabled (config z) domain = true ->
  GetDomain (domainCache z) domain = ROk info ->
  ~ domainDrained info zone ->
  Get z domain zone =
    match GetClusterDrains (globalZoneDrains z) with
    | RErr e => RErr (Errorf "could not resolve global drains in zone handler" e)
    | ROk drains =>
        match drains !! zone with
        | Some globalCfg => ROk globalCfg
        | None => ROk {| Name := zone; Status := ZoneDrainStatusHealthy |}
        end
    end.
Proof.
  unfold Get. intros -> -> Hnd. cbn [negb].
  destruct (ZoneConfig info !! zone) as [cfg|] eqn:Hl.
  - rewrite (map_index_Some _ _ _ Hl).
    assert (Hs : (Status cfg =? ZoneDrainStatusDrained) = false).
    { apply Z.eqb_neq. intros Hs. apply Hnd. exists cfg. auto. }
    rewrite Hs. cbn [andb].
    destruct (GetClusterDrains (globalZoneDrains z)) as [drains|e]; [|reflexivity].
    unfold map_index. destruct (drains !! zone); reflexivity.
  - rewrite (map_index_None _ _ Hl). cbn [andb].
    destruct (GetClusterDrains (globalZoneDrains z)) as [drains|e]; [|reflexivity].
    unfold map_index. destruct (drains !! zone); reflexivity.
Qed.

(** C7.  [Get] resolves a zone through its layers in order: the feature gate,
    then the per-domain entry if it is a drained one, then the entry of the
    global drain table, then the healthy default.  Hence a zone that a
    consulted layer marks drained is reported drained, and a per-domain entry
    that is not drained never hides the global entry. *)
Theorem Get_layered (z : DefaultZoneStateHandler) (domain : string) (zone : ZoneName) :
  (zonalPartitioningEnabled (config z) domain = false ->
   Get z domain zone = ROk {| Name := zone; Status := ZoneDrainStatusHealthy |})
  /\
  (forall info cfg,
     zonalPartitioningEnabled (config z) domain = true ->
     GetDomain (domainCache z) domain = ROk info ->
     ZoneConfig info !! zone = Some cfg ->
     Status cfg = ZoneDrainStatusDrained ->
     Get z domain zone = ROk cfg)
  /\
  (forall info drains globalCfg,
     zonalPartitioningEnabled (config z) domain = true ->
     GetDomain (domainCache z) domain = ROk info ->
     ~ domainDrained info zone ->
     GetClusterDrains (globalZoneDrains z) = ROk drains ->
     drains !! zone = Some globalCfg ->
     Get z domain zone = ROk globalCfg)
  /\
  (forall info drains,
     zonalPartitioningEnabled (config z) domain = true ->
     GetDomain (domainCache z) domain = ROk info ->
     ~ domainDrained info zone ->
     GetClusterDrains (globalZoneDrains z) = ROk drains ->
     drains !! zone = None ->
     Get z domain zone = ROk {| Name := zone; Status := ZoneDrainStatusHealthy |})
  /\
  (forall info drains globalCfg zp,
     zonalPartitioningEnabled (config z) domain = true ->
     GetDomain (domainCache z) domain = ROk info ->
     GetClusterDrains (globalZoneDrains z) = ROk drains ->
     drains !! zone = Some globalCfg ->
     Status globalCfg = ZoneDrainStatusDrained ->
     Get z domain zone = ROk zp ->
     Status zp = ZoneDrainStatusDrained).
Proof.
  split; [apply Get_disabled|].
  split; [intros; eapply Get_domain_drained; eauto|].
  split.
  { intros info drains g He Hd Hnd Hg Hl.
    rewrite (Get_falls_through _ _ _ _ He Hd Hnd), Hg, Hl. reflexivity. }
  split.
  { intros info drains He Hd Hnd Hg Hl.
    rewrite (Get_falls_through _ _ _ _ He Hd Hnd), Hg, Hl. reflexivity. }
  intros info drains g zp He Hd Hg Hl Hs Hget.
  destruct (ZoneConfig info !! zone) as [cfg|] eqn:Hc.
  - destruct (Z.eq_dec (Status cfg) ZoneDrainStatusDrained) as [Hdr|Hdr].
    + rewrite (Get_domain_drained _ _ _ _ _ He Hd Hc Hdr) in Hget.
      injection Hget as <-. exact Hdr.
    + rewrite (Get_falls_through _ _ _ _ He Hd), Hg, Hl in Hget.
      * injection Hget as <-. exact Hs.
      * intros (cfg' & Hc' & Hs'). congruence.
  - rewrite (Get_falls_through _ _ _ _ He Hd), Hg, Hl in Hget.
    + injection Hget as <-. exact Hs.
    + intros (cfg' & Hc' & _). congruence.
Qed.

(** The handler of the example [oneDrained]: the global drain of [b] wins over
    the healthy per-domain entry. *)
Lemma Get_layered_witness :
  Get oneDrained "d" "b" = ROk {| Name := "b"; Status := ZoneDrainStatusDrained |}.
Proof.
  pose proof (Get_layered oneDrained "d" "b") as (_ & _ & Hglobal & _).
  eapply Hglobal.
  - reflexivity.
  - reflexivity.
  - intros (cfg & Hl & Hs). vm_compute in Hl. injection Hl as <-. discriminate Hs.
  - reflexivity.
  - reflexivity.
Defined.

(** ** Listing all zones *)

Lemma ListAll_loop_spec z domainID zones : forall out,
  (exists res,
     ListAll_loop z domainID zones out = ROk (out ++ res) /\
     Forall2 (fun zone zp => Get z domainID zone = ROk zp) zones res)
  \/
  (exists pre zone post res e,
     zones = pre ++ zone :: post /\
     Forall2 (fun zone zp => Get z domainID zone = ROk zp) pre res /\
     Get z domainID zone = RErr e /\
     ListAll_loop z domainID zones out =
       RErr (Errorf "failed to get zone during listing" e)).
Proof.
  induction zones as [|zone rest IH]; intros out.
  - left. exists []. rewrite app_nil_r. split; [reflexivity | constructor].
  - cbn [ListAll_loop]. destruct (Get z domainID zone) as [zp|e] eqn:Hget.
    + destruct (IH (out ++ [zp])) as [(res & Hres & Hall) | (pre & zn & post & res & e & -> & Hall & Hz & Hres)].
      * left. exists (zp :: res). rewrite Hres, <- app_assoc. split; [reflexivity|].
        constructor; assumption.
      * right. exists (zone :: pre), zn, post, (zp :: res), e.
        repeat split; try assumption. constructor; assumption.
    + right. exists [], zone, rest, [], e. repeat split; try assumption. constructor.
Qed.

(** C10.  [ListAll] returns either one zone partition for each zone of
    [allZonesList], in the order of that list, each being what [Get] resolves
    for the zone; or, when [Get] fails for some zone, that error (wrapped) and
    no list. *)
Theorem ListAll_all_or_error (z : DefaultZoneStateHandler) (domainID : string) :
  (exists out,
     ListAll z domainID = ROk out /\
     length out = length (allZonesList z) /\
     Forall2 (fun zone zp => Get z domainID zone = ROk zp) (allZonesList z) out)
  \/
  (exists pre zone post e,
     allZonesList z = pre ++ zone :: post /\
     (forall zone', In zone' pre -> exists zp, Get z domainID zone' = ROk zp) /\
     Get z domainID zone = RErr e /\
     ListAll z domainID = RErr (Errorf "failed to get zone during listing" e)).
Proof.
  unfold ListAll.
  destruct (ListAll_loop_spec z domainID (allZonesList z) [])
    as [(res & Hres & Hall) | (pre & zone & post & res & e & Hz & Hall & Hget & Hres)].
  - left. exists res. cbn in Hres. split; [assumption|]. split; [|assumption].
    symmetry. eapply Forall2_length; eassumption.
  - right. exists pre, zone, post, e. repeat split; try assumption.
    intros zone' Hin. clear -Hall Hin.
    induction Hall as [|x y l l' Hxy Hall IH]; [destruct Hin|].
    destruct Hin as [->|Hin]; [exists y; assumption | auto].
Qed.

(** ** Picking a zone after a drain *)

Lemma availableZones_loop_spec zones : forall acc,
  availableZones_loop zones acc = acc ++ healthyZones zones.
Proof.
  unfold healthyZones.
  induction zones as [|zone rest IH]; intros acc; cbn [availableZones_loop].
  - cbn. rewrite app_nil_r. reflexivity.
  - destruct (Z.eqb_spec (Status zone) ZoneDrainStatusHealthy) as [Hh|Hh].
    + rewrite IH, filter_cons_True by assumption. cbn. rewrite <- app_assoc. reflexivity.
    + rewrite IH, filter_cons_False by assumption. reflexivity.
Qed.

Lemma healthyZones_all_healthy zones :
  Forall (fun zone => Status zone = ZoneDrainStatusHealthy) zones ->
  healthyZones zones = map Name zones.
Proof.
  unfold healthyZones. induction 1 as [|zone rest Hh _ IH]; [reflexivity|].
  rewrite filter_cons_True by assumption. cbn. rewrite IH. reflexivity.
Qed.

Lemma uint32_range x : 0 <= uint32 x < 2 ^ 32.
Proof. unfold uint32. apply Z.mod_pos_bound. lia. Qed.

(** With no healthy zone in the listing, the pick divides by zero. *)
Lemma pickZoneAfterDrain_no_healthy Hash32 zones wfConfig :
  healthyZones zones = [] ->
  pickZoneAfterDrain Hash32 zones wfConfig =
    Panic "runtime error: integer divide by zero".
Proof.
  intros Hnone. unfold pickZoneAfterDrain.
  rewrite availableZones_loop_spec, Hnone. reflexivity.
Qed.

(** C8.  With [Z] the non-empty list of healthy zones of the listing, the
    pick is the element of [Z] at index [farm-hash-32(run-id) mod |Z|]; it
    depends on the listing only through [Z] and on the hint only through its
    run-id, so equal [Z] and run-id give the same zone. *)
Theorem pickZoneAfterDrain_deterministic (Hash32 : string -> Z)
  (zones : list ZonePartition) (wfConfig : DefaultPartitionConfig) :
  healthyZones zones <> [] ->
  (exists zone,
     healthyZones zones
       !! Z.to_nat (uint32 (Hash32 (RunID wfConfig))
                    mod Z.of_nat (length (healthyZones zones))) = Some zone /\
     pickZoneAfterDrain Hash32 zones wfConfig = Ok zone)
  /\
  (forall zones' wfConfig',
     healthyZones zones' = healthyZones zones ->
     RunID wfConfig' = RunID wfConfig ->
     pickZoneAfterDrain Hash32 zones' wfConfig' =
     pickZoneAfterDrain Hash32 zones wfConfig).
Proof.
  intros Hne. split.
  - unfold pickZoneAfterDrain. rewrite availableZones_loop_spec. cbn [app].
    set (avail := healthyZones zones) in *.
    pose proof (uint32_range (Hash32 (RunID wfConfig))) as Hh.
    assert (Hlen : 0 < Z.of_nat (length avail)).
    { destruct avail; [congruence | cbn [length]; lia]. }
    destruct (Z.eqb_spec (Z.of_nat (length avail)) 0) as [H0|_]; [lia|].
    rewrite Z.rem_mod_nonneg by lia.
    pose proof (Z.mod_pos_bound (uint32 (Hash32 (RunID wfConfig)))
                  (Z.of_nat (length avail)) Hlen) as Hidx.
    destruct (lookup_lt_is_Some_2 avail
                (Z.to_nat (uint32 (Hash32 (RunID wfConfig)) mod Z.of_nat (length avail))))
      as [zone Hzone]; [lia|].
    exists zone. rewrite Hzone. auto.
  - intros zones' wfConfig' HZ Hr. unfold pickZoneAfterDrain.
    rewrite !availableZones_loop_spec, HZ, Hr. reflexivity.
Qed.

(** Healthy zones [a; c] after the drain of [b]: the pick is the zone at the
    index given by the hash. *)
Lemma pickZoneAfterDrain_deterministic_witness :
  pickZoneAfterDrain (fun _ => 7)
    [ {| Name := "a"; Status := ZoneDrainStatusHealthy |};
      {| Name := "b"; Status := ZoneDrainStatusDrained |};
      {| Name := "c"; Status := ZoneDrainStatusHealthy |} ]
    {| WorkflowStartZone := "b"; RunID := "r1" |} = Ok "c".
Proof.
  destruct (pickZoneAfterDrain_deterministic (fun _ => 7)
              [ {| Name := "a"; Status := ZoneDrainStatusHealthy |};
                {| Name := "b"; Status := ZoneDrainStatusDrained |};
                {| Name := "c"; Status := ZoneDrainStatusHealthy |} ]
              {| WorkflowStartZone := "b"; RunID := "r1" |})
    as [(zone & Hidx & Hpick) _].
  - vm_compute. discriminate.
  - vm_compute in Hidx. injection Hidx as <-. exact Hpick.
Defined.

(** ** Routing a task *)

Section Hints.

Variable Hash32 : string -> Z.
Variable equalFold : string -> string -> bool.

Lemma decode_members_app pre post st :
  decode_members equalFold (pre ++ post) st =
  decode_members equalFold post (decode_members equalFold pre st).
Proof.
  revert st. induction pre as [|[k v] pre IH]; intros st; [reflexivity|].
  cbn [decode_members app]. destruct (field_of_key equalFold k); apply IH.
Qed.

Lemma decode_members_unknown pre k v post st :
  field_of_key equalFold k = None ->
  decode_members equalFold (pre ++ (k, v) :: post) st =
  decode_members equalFold (pre ++ post) st.
Proof.
  intros Hk. rewrite !decode_members_app. cbn [decode_members].
  rewrite Hk. reflexivity.
Qed.

Lemma store_field_RunID_start v st :
  WorkflowStartZone (fst (store_field FRunID v st)) = WorkflowStartZone (fst st).
Proof. destruct st as [d saved]. destruct v; reflexivity. Qed.

(** Members that never select the start-zone field leave it as it was. *)
Lemma decode_members_start_untouched members : forall st,
  (forall k v, In (k, v) members ->
               field_of_key equalFold k <> Some FWorkflowStartZone) ->
  WorkflowStartZone (fst (decode_members equalFold members st)) =
  WorkflowStartZone (fst st).
Proof.
  induction members as [|[k v] rest IH]; intros st Hno; [reflexivity|].
  cbn [decode_members].
  assert (Hrest : forall k' v', In (k', v') rest ->
                    field_of_key equalFold k' <> Some FWorkflowStartZone).
  { intros k' v' Hin. apply (Hno k' v'). right. exact Hin. }
  destruct (field_of_key equalFold k) as [[|]|] eqn:Hk.
  - exfalso. apply (Hno k v); [left; reflexivity | exact Hk].
  - rewrite IH by exact Hrest. apply store_field_RunID_start.
  - apply IH, Hrest.
Qed.

(** The general form of the missing case: when the start zone is drained
    and the listing has no healthy zone, [GetTaskZone] panics. *)
Lemma GetTaskZone_no_healthy r DomainID key partitionData zones :
  json_Unmarshal equalFold key DefaultPartitionConfig_zero = (partitionData, None) ->
  IsDrained r DomainID (WorkflowStartZone partitionData) = ROk true ->
  zs_ListAll (drainState r) DomainID = ROk zones ->
  healthyZones zones = [] ->
  GetTaskZone Hash32 equalFold r DomainID key =
    Panic "runtime error: integer divide by zero".
Proof.
  intros Hdec Hdr Hlist Hnone. unfold GetTaskZone.
  rewrite Hdec, Hdr, Hlist. apply pickZoneAfterDrain_no_healthy, Hnone.
Qed.

(** C3.  The start zone [a] of the hint is drained and the listing of the
    domain ([a] and [b], both drained) has no healthy zone: [GetTaskZone]
    does not return an error, it panics on the division by the number of
    healthy zones. *)
Theorem GetTaskZone_all_drained_panics :
  zs_ListAll (drainState (partitionerOf allDrained)) "d" =
    ROk [ {| Name := "a"; Status := ZoneDrainStatusDrained |};
          {| Name := "b"; Status := ZoneDrainStatusDrained |} ]
  /\
  GetTaskZone Hash32 equalFold (partitionerOf allDrained) "d"
    (Some (JObject [("wf-start-zone", JString "a"); ("run-id", JString "r1")]))
  = Panic "runtime error: integer divide by zero".
Proof. split; reflexivity. Qed.

(** C4, as the code has it.  A member whose key selects no field is
    skipped, wherever it stands in the hint.  A hint without a member for
    the start-zone field is not refused: it is routed exactly as a hint that
    declares the empty zone name, so that, when it decodes and the empty
    zone is not drained, the empty zone name is returned. *)
Theorem GetTaskZone_hint_keys (r : DefaultPartitioner) (DomainID : string) :
  (forall pre k v post,
     field_of_key equalFold k = None ->
     GetTaskZone Hash32 equalFold r DomainID (Some (JObject (pre ++ (k, v) :: post))) =
     GetTaskZone Hash32 equalFold r DomainID (Some (JObject (pre ++ post))))
  /\
  (forall members,
     (forall k v, In (k, v) members ->
                  field_of_key equalFold k <> Some FWorkflowStartZone) ->
     GetTaskZone Hash32 equalFold r DomainID (Some (JObject members)) =
     GetTaskZone Hash32 equalFold r DomainID
       (Some (JObject (("wf-start-zone", JString "") :: members)))
     /\
     (snd (json_Unmarshal equalFold (Some (JObject members))
             DefaultPartitionConfig_zero) = None ->
      IsDrained r DomainID "" = ROk false ->
      GetTaskZone Hash32 equalFold r DomainID (Some (JObject members)) = Ok "")).
Proof.
  split.
  - intros pre k v post Hk. unfold GetTaskZone, json_Unmarshal.
    rewrite decode_members_unknown by exact Hk. reflexivity.
  - intros members Hno. split; [reflexivity|].
    intros Hdec Hdr. unfold GetTaskZone.
    cbn [json_Unmarshal] in *.
    pose proof (decode_members_start_untouched members
                  (DefaultPartitionConfig_zero, None) Hno) as Hstart.
    destruct (decode_members equalFold members (DefaultPartitionConfig_zero, None))
      as [partitionData saved].
    cbn [fst snd] in *. subst saved.
    rewrite Hstart. cbn [WorkflowStartZone DefaultPartitionConfig_zero].
    rewrite Hdr. reflexivity.
Qed.

End Hints.

(** C4 refuted as stated: the hint [{"run-id": "r1"}] decodes and has no
    start-zone member, and [GetTaskZone] answers with the empty zone name, for
    whatever hash and name folding, where the claim wants the invalid-hint
    error. *)
Lemma GetTaskZone_missing_start_zone_accepted :
  (fun Hash32 equalFold =>
     GetTaskZone Hash32 equalFold (partitionerOf gateOff) "d"
       (Some (JObject [("run-id", JString "r1")])))
  = (fun _ _ => Ok "").
Proof. reflexivity. Qed.

(** The hint [{"user": 7, "run-id": "r1"}] on the deployment with the gate
    off: the unknown member is skipped and the empty zone name comes back. *)
Lemma GetTaskZone_hint_keys_witness :
  GetTaskZone (fun _ => 7) String.eqb (partitionerOf gateOff) "d"
    (Some (JObject [("user", JNumber "7"); ("run-id", JString "r1")])) = Ok "".
Proof.
  destruct (GetTaskZone_hint_keys (fun _ => 7) String.eqb (partitionerOf gateOff) "d")
    as [Hskip Hmissing].
  etransitivity;
    [exact (Hskip [] "user" (JNumber "7") [("run-id", JString "r1")] eq_refl)|].
  apply (Hmissing [("run-id", JString "r1")]).
  - intros k v [Hin|[]]. injection Hin as <- <-. vm_compute. discriminate.
  - reflexivity.
  - reflexivity.
Defined.

End PartitionFacts.

Module MatchingFacts.
Import Matching Int64Facts.

(** ** Stop and admission *)

Lemma Stop_idempotent w w' : Stop w = Done tt w' -> Stop w' = Done tt w'.
Proof.
  unfold Stop. destruct (Z.eqb_spec (stopped w) 0) as [H0|H0].
  - destruct (stopCh w); [|discriminate]. intros [= <-]. reflexivity.
  - intros [= <-]. apply Z.eqb_neq in H0. rewrite H0. reflexivity.
Qed.

Lemma Stop_stops w w' :
  stop_consistent w -> Stop w = Done tt w' -> stopped w' = 1 /\ stopCh w' = Closed.
Proof.
  unfold Stop. intros [[Hs Hc]|[Hs Hc]]; rewrite Hs, Hc; cbn; intros [= <-]; auto.
Qed.

Lemma Stop_returns w :
  stop_consistent w ->
  exists w', Stop w = Done tt w' /\ stop_consistent w' /\
             db w' = db w /\ config w' = config w /\ appendCh w' = appendCh w /\
             appendChCap w' = appendChCap w /\
             w_taskIDBlock w' = w_taskIDBlock w /\ maxReadLevel w' = maxReadLevel w.
Proof.
  unfold Stop, stop_consistent. intros [[Hs Hc]|[Hs Hc]]; rewrite Hs, Hc; cbn.
  - eexists. split; [reflexivity|]. cbn. repeat split; auto.
  - eexists. split; [reflexivity|]. repeat split; auto.
Qed.

Lemma appendTask_stopped e t ch w :
  stopped w = 1 -> appendTask e t ch w = Done (Returned None (Some errShutdown)) w.
Proof. unfold appendTask, isStopped. intros ->. reflexivity. Qed.

Lemma appendTask_full e t ch w :
  isStopped w = false ->
  (appendChCap w <= length (appendCh w))%nat ->
  appendTask e t ch w =
    Done (Returned None
            (Some (ServiceBusyError "Too many outstanding appends to the TaskList"))) w.
Proof.
  unfold appendTask. intros -> Hfull.
  destruct (Nat.ltb_spec (length (appendCh w)) (appendChCap w)); [lia | reflexivity].
Qed.

(** *** Nothing resets the [stopped] flag *)

Lemma keeps_ret {A} (a : A) : keeps_stopped (ret a).
Proof. intros w a' w' [= <- <-]. auto. Qed.

Lemma keeps_get : keeps_stopped get.
Proof. intros w a' w' [= <- <-]. auto. Qed.

Lemma keeps_modify f :
  (forall w, stopped (f w) = stopped w) -> keeps_stopped (modify f).
Proof. intros Hf w a' w' [= <- <-]. rewrite Hf. auto. Qed.

Lemma keeps_panic {A} msg : keeps_stopped (@panic A msg).
Proof. intros w a' w'. discriminate. Qed.

Lemma keeps_bind {A B} (m : M A) (k : A -> M B) :
  keeps_stopped m -> (forall a, keeps_stopped (k a)) -> keeps_stopped (bind m k).
Proof.
  intros Hm Hk w b w'. unfold bind.
  destruct (m w) as [a w1|] eqn:Hmw; [|discriminate].
  intros Hkw Hs. eapply Hk; [exact Hkw|]. eapply Hm; eauto.
Qed.

Lemma keeps_Stop : keeps_stopped Stop.
Proof.
  intros w a w'. unfold Stop. intros H Hs. rewrite Hs in H. cbn in H.
  congruence.
Qed.

Lemma keeps_appendTask e t ch : keeps_stopped (appendTask e t ch).
Proof.
  intros w a w' H Hs. rewrite appendTask_stopped in H by exact Hs.
  congruence.
Qed.

Section StoppedKept.

Variable env : Collaborators.

Create HintDb keeps.
Local Hint Resolve keeps_ret keeps_get keeps_panic keeps_Stop : keeps.

Ltac keeps :=
  repeat first
    [ progress auto with keeps
    | apply keeps_bind; [|intros ?]
    | apply keeps_modify; intros ?; reflexivity
    | match goal with
      | |- keeps_stopped (match ?x with _ => _ end) => destruct x
      | |- keeps_stopped (if ?x then _ else _) => destruct x
      | |- keeps_stopped (let '(_, _) := ?x in _) => destruct x
      end ].

Lemma keeps_renewLeaseWithRetry : keeps_stopped (renewLeaseWithRetry env).
Proof. unfold renewLeaseWithRetry, tlMgr_Stop. keeps. Qed.

Lemma keeps_allocTaskIDBlock prev : keeps_stopped (allocTaskIDBlock env prev).
Proof.
  unfold allocTaskIDBlock. pose proof keeps_renewLeaseWithRetry. keeps.
Qed.

Lemma keeps_allocTaskIDs_loop togo : forall res,
  keeps_stopped (allocTaskIDs_loop env togo res).
Proof.
  induction togo as [|togo IH]; intros res; cbn [allocTaskIDs_loop].
  - keeps.
  - pose proof keeps_allocTaskIDBlock. keeps.
Qed.

Lemma keeps_getWriteBatch_loop togo : forall reqs,
  keeps_stopped (getWriteBatch_loop togo reqs).
Proof.
  induction togo as [|togo IH]; intros reqs; cbn [getWriteBatch_loop]; keeps.
Qed.

Lemma keeps_writeBatch request : keeps_stopped (writeBatch env request).
Proof.
  unfold writeBatch, getWriteBatch, allocTaskIDs, tlMgr_Stop.
  pose proof keeps_getWriteBatch_loop. pose proof keeps_allocTaskIDs_loop.
  keeps.
Qed.

Lemma step_keeps_stopped ev s s' :
  step env ev s = Ok s' -> stopped (writer s) = 1 -> stopped (writer s') = 1.
Proof.
  destruct ev; cbn [step].
  - destruct (appendTask _ _ _ _) as [a w|] eqn:H; [|discriminate].
    intros [= <-] Hs. cbn. eapply keeps_appendTask; eauto.
  - destruct (Stop _) as [a w|] eqn:H; [|discriminate].
    intros [= <-] Hs. cbn. eapply keeps_Stop; eauto.
  - destruct (loop s); try (intros [= <-]; auto).
    destruct (appendCh (writer s)) as [|request rest]; [intros [= <-]; auto|].
    destruct (writeBatch _ _ _) as [out w|] eqn:H; [|discriminate].
    intros [= <-] Hs. cbn. eapply keeps_writeBatch; eauto.
  - destruct (loop s); try (intros [= <-]; auto).
    destruct (stopCh (writer s)); intros [= <-]; auto.
Qed.

Lemma run_keeps_stopped evs : forall s s',
  run env evs s = Ok s' -> stopped (writer s) = 1 -> stopped (writer s') = 1.
Proof.
  induction evs as [|ev evs IH]; intros s s'; cbn [run].
  - intros [= <-]. auto.
  - destruct (step env ev s) as [s1| |] eqn:Hstep; try discriminate.
    intros Hrun Hs. eapply IH; [exact Hrun|]. eapply step_keeps_stopped; eauto.
Qed.

End StoppedKept.

(** C9, as the code has it.  Once [Stop] has returned, every later call of
    [appendTask] returns [errShutdown], whatever happened in between; a call
    on a writer that is not stopped, with a buffered [appendCh] (a capacity
    of at least one) that is full, returns the service-busy error at once (it
    does not park and leaves the writer as it was); and a second [Stop]
    changes nothing and closes nothing. *)
Theorem appendTask_Stop_contract (env : Collaborators) :
  (forall s evs s' e t ch w',
     stop_consistent (writer s) ->
     Stop (writer s) = Done tt w' ->
     run env evs (mkSystem w' (loop s) (sent s)) = Ok s' ->
     appendTask e t ch (writer s') =
       Done (Returned None (Some errShutdown)) (writer s'))
  /\
  (forall w e t ch,
     isStopped w = false ->
     (0 < appendChCap w)%nat ->
     (appendChCap w <= length (appendCh w))%nat ->
     appendTask e t ch w =
       Done (Returned None
               (Some (ServiceBusyError "Too many outstanding appends to the TaskList"))) w)
  /\
  (forall w w', Stop w = Done tt w' -> Stop w' = Done tt w').
Proof.
  split; [|split].
  - intros s evs s' e t ch w' Hc Hstop Hrun.
    apply appendTask_stopped.
    eapply run_keeps_stopped; [exact Hrun|]. cbn.
    eapply Stop_stops; eauto.
  - intros. apply appendTask_full; assumption.
  - apply Stop_idempotent.
Qed.

(** A fresh writer for [smallConfig]. *)
Lemma newTaskWriter_small :
  newTaskWriter freshDB smallConfig =
    Ok (mkTaskWriter freshDB smallConfig 0 [] 4 (mkTaskIDBlock 0 0) 0 0 Open).
Proof. reflexivity. Qed.

(** The queue of four is full: an append is refused as busy; after [Stop]
    and the exit of the loop, an append gets [errShutdown]. *)
Lemma appendTask_Stop_contract_witness :
  let r := fun ch => mkWriteTaskRequest "wf" "t" ch in
  let w := mkTaskWriter freshDB smallConfig 0 [r 0%nat; r 1%nat; r 2%nat; r 3%nat] 4
             (mkTaskIDBlock 0 0) 0 0 Open in
  appendTask "wf" "t" 4 w =
    Done (Returned None
            (Some (ServiceBusyError "Too many outstanding appends to the TaskList"))) w
  /\
  appendTask "wf" "t" 5 (set_stopped 1 Closed w) =
    Done (Returned None (Some errShutdown)) (set_stopped 1 Closed w).
Proof.
  cbv zeta.
  destruct (appendTask_Stop_contract workingStore) as (Hafter & Hfull & _).
  split.
  - apply Hfull; [reflexivity | cbn; lia | cbn; lia].
  - set (r := fun ch => mkWriteTaskRequest "wf" "t" ch).
    set (w := mkTaskWriter freshDB smallConfig 0 [r 0%nat; r 1%nat; r 2%nat; r 3%nat] 4
                (mkTaskIDBlock 0 0) 0 0 Open).
    apply (Hafter (mkSystem w Running []) [EvLoopStopCh]
             (mkSystem (set_stopped 1 Closed w) Exited [])
             "wf" "t" 5%nat (set_stopped 1 Closed w)).
    + left. split; reflexivity.
    + reflexivity.
    + reflexivity.
Defined.

(** Run a closed program and take what it returns as the witness. *)
Ltac exists_result t :=
  let r := eval vm_compute in t in
  lazymatch r with
  | Ok ?s => exists s
  | Done _ ?w => exists w
  end.

(** C9 refuted as stated: with [appendCh] full and the writer stopped, a call
    of [appendTask] returns [errShutdown], not the service-busy error. *)
Lemma appendTask_full_and_stopped :
  exists s,
    run workingStore
      [EvAppend "wf" "t" 0; EvAppend "wf" "t" 1; EvAppend "wf" "t" 2; EvAppend "wf" "t" 3;
       EvStop]
      (mkSystem (mkTaskWriter freshDB smallConfig 0 [] 4 (mkTaskIDBlock 0 0) 0 0 Open)
         Running []) = Ok s /\
    length (appendCh (writer s)) = appendChCap (writer s) /\
    appendTask "wf" "t" 4 (writer s) =
      Done (Returned None (Some errShutdown)) (writer s) /\
    appendTask "wf" "t" 4 (writer s) <>
      Done (Returned None
              (Some (ServiceBusyError "Too many outstanding appends to the TaskList")))
           (writer s).
Proof.
  exists_result
    (run workingStore
       [EvAppend "wf" "t" 0; EvAppend "wf" "t" 1; EvAppend "wf" "t" 2; EvAppend "wf" "t" 3;
        EvStop]
       (mkSystem (mkTaskWriter freshDB smallConfig 0 [] 4 (mkTaskIDBlock 0 0) 0 0 Open)
          Running [])).
  split; [vm_compute; reflexivity|]. split; [reflexivity|].
  split; [reflexivity|]. cbn. discriminate.
Qed.

(** ** Batching *)

Lemma getWriteBatch_loop_spec togo : forall reqs w,
  getWriteBatch_loop togo reqs w =
    Done (reqs ++ take togo (appendCh w)) (set_appendCh (drop togo (appendCh w)) w).
Proof.
  induction togo as [|togo IH]; intros reqs w; cbn [getWriteBatch_loop].
  - cbn. rewrite app_nil_r, drop_0. destruct w; reflexivity.
  - unfold bind, get. destruct (appendCh w) as [|req rest] eqn:Hq.
    + cbn. rewrite app_nil_r. destruct w; cbn in *; subst; reflexivity.
    + unfold modify. rewrite IH. cbn. rewrite <- app_assoc. reflexivity.
Qed.

(** The batch is what the loop already holds plus as many queued requests as
    are there, up to [MaxTaskBatchSize] of them. *)
Lemma getWriteBatch_spec reqs w :
  getWriteBatch reqs w =
    Done (reqs ++ take (Z.to_nat (MaxTaskBatchSize (config w))) (appendCh w))
         (set_appendCh (drop (Z.to_nat (MaxTaskBatchSize (config w))) (appendCh w)) w).
Proof. unfold getWriteBatch, bind, get. apply getWriteBatch_loop_spec. Qed.

Lemma getWriteBatch_length request w :
  returns (getWriteBatch [request] w) (fun reqs _ =>
    length reqs =
      S (Nat.min (Z.to_nat (MaxTaskBatchSize (config w))) (length (appendCh w)))).
Proof. rewrite getWriteBatch_spec. cbn. rewrite length_take. reflexivity. Qed.

(** C2.  [MaxTaskBatchSize] is 2 and five requests are waiting: the turn of
    the loop receives one, [getWriteBatch] adds two more, and a batch of three
    is committed. *)
Theorem getWriteBatch_exceeds_MaxTaskBatchSize :
  let r := fun ch => mkWriteTaskRequest "wf" "t" ch in
  let w := mkTaskWriter freshDB smallConfig 0 [r 1%nat; r 2%nat; r 3%nat; r 4%nat] 4
             (mkTaskIDBlock 0 0) 0 0 Open in
  MaxTaskBatchSize (config w) = 2 /\
  getWriteBatch [r 0%nat] w =
    Done [r 0%nat; r 1%nat; r 2%nat] (set_appendCh [r 3%nat; r 4%nat] w) /\
  exists s0 s,
    started workingStore
      (mkTaskWriter freshDB smallConfig 0 [] 4 (mkTaskIDBlock 0 0) 0 0 Open) = Ok s0 /\
    run workingStore
      [EvAppend "wf" "t" 0; EvAppend "wf" "t" 1; EvAppend "wf" "t" 2; EvAppend "wf" "t" 3;
       EvLoopAppendCh] s0 = Ok s /\
    map TaskID (committed (db (writer s))) = [1; 2; 3] /\
    createCalls (db (writer s)) = 1%nat.
Proof.
  cbv zeta. split; [reflexivity|]. split; [vm_compute; reflexivity|].
  exists_result
    (started workingStore
       (mkTaskWriter freshDB smallConfig 0 [] 4 (mkTaskIDBlock 0 0) 0 0 Open)).
  match goal with |- exists s, _ /\ run ?env ?evs ?s0 = _ /\ _ =>
    exists_result (run env evs s0) end.
  split; [vm_compute; reflexivity|]. split; [vm_compute; reflexivity|].
  split; reflexivity.
Qed.

(** ** The watermark *)

(** C1.  Block size ten, first lease, one append, and a store whose commit
    fails: the turn of the loop hands the error to the caller, nothing is
    committed, and [maxReadLevel] has moved from 0 to the id 1 of the failed
    batch. *)
Theorem maxReadLevel_moves_on_failed_commit :
  exists s0 s,
    started failingStore
      (mkTaskWriter freshDB smallConfig 0 [] 4 (mkTaskIDBlock 0 0) 0 0 Open) = Ok s0 /\
    GetMaxReadLevel (writer s0) = 0 /\
    run failingStore [EvAppend "wf" "t" 0; EvLoopAppendCh] s0 = Ok s /\
    sent s = [(0%nat, {| err := Some (ExternalError "persistence unavailable");
                         persistenceResponse := None |})] /\
    committed (db (writer s)) = [] /\
    GetMaxReadLevel (writer s) = 1.
Proof.
  exists_result
    (started failingStore
       (mkTaskWriter freshDB smallConfig 0 [] 4 (mkTaskIDBlock 0 0) 0 0 Open)).
  match goal with |- exists s, _ /\ _ /\ run ?env ?evs ?s0 = _ /\ _ =>
    exists_result (run env evs s0) end.
  split; [vm_compute; reflexivity|]. split; [reflexivity|].
  split; [vm_compute; reflexivity|]. repeat split; reflexivity.
Qed.

(** ** Allocation of task ids *)

Lemma in_range_between lo hi x :
  Int64.in_range lo -> Int64.in_range hi -> lo <= x <= hi -> Int64.in_range x.
Proof. unfold Int64.in_range. lia. Qed.

Lemma max_int_value : Int64.max_int = 9223372036854775807.
Proof. reflexivity. Qed.

Lemma min_int_value : Int64.min_int = -9223372036854775808.
Proof. reflexivity. Qed.

(** The block of a range-id that fits is the one of the block arithmetic. *)
Lemma rangeIDToTaskIDBlock_exact k R :
  0 < R -> 1 <= k -> k * R < Int64.max_int ->
  rangeIDToTaskIDBlock k R = {| start := (k - 1) * R + 1; end_ := k * R |}.
Proof.
  intros HR Hk Hfit. rewrite max_int_value in Hfit.
  unfold rangeIDToTaskIDBlock, Int64.add, Int64.mul, Int64.sub.
  assert (Hlow : 0 <= (k - 1) * R) by nia.
  assert (Hle : (k - 1) * R <= k * R) by nia.
  assert (Hk' : k <= k * R) by nia.
  rewrite (wrap_small (k - 1)) by (unfold Int64.in_range; rewrite max_int_value, min_int_value; lia).
  rewrite (wrap_small ((k - 1) * R)) by (unfold Int64.in_range; rewrite max_int_value, min_int_value; lia).
  rewrite (wrap_small ((k - 1) * R + 1)) by (unfold Int64.in_range; rewrite max_int_value, min_int_value; lia).
  rewrite (wrap_small (k * R)) by (unfold Int64.in_range; rewrite max_int_value, min_int_value; lia).
  reflexivity.
Qed.

Lemma headroom_le n m w : (m <= n)%nat -> block_inv w -> headroom n w -> headroom m w.
Proof. unfold headroom, block_inv. intros Hmn (HR & _) H. nia. Qed.

(** Projections out of updated writers. *)
Ltac simpl_writer :=
  cbn [set_db set_ackManagerLevel set_appendCh set_taskIDBlock set_maxReadLevel
       set_stopped db config ackManagerLevel appendCh appendChCap w_taskIDBlock
       maxReadLevel stopped stopCh start end_ db_rangeID db_ackLevel committed
       leaseCalls createCalls rangeID ackLevel] in *.

Section Allocation.

Variable env : Collaborators.

Lemma renewLeaseWithRetry_granted w :
  leaseOutcome env (leaseCalls (db w)) = None ->
  renewLeaseWithRetry env w =
    Done (ROk {| rangeID := Int64.add (db_rangeID (db w)) 1;
                 ackLevel := db_ackLevel (db w) |})
         (set_db (mkTaskListDB (Int64.add (db_rangeID (db w)) 1) (db_ackLevel (db w))
                    (committed (db w)) (S (leaseCalls (db w))) (createCalls (db w))) w).
Proof.
  intros Hl. unfold renewLeaseWithRetry, bind, get, RenewLease. rewrite Hl. reflexivity.
Qed.

Lemma renewLeaseWithRetry_refused w e :
  leaseOutcome env (leaseCalls (db w)) = Some e ->
  stop_consistent w ->
  exists w',
    renewLeaseWithRetry env w = Done (RErr e) w' /\
    stop_consistent w' /\ alloc_frame w w' /\
    db_rangeID (db w') = db_rangeID (db w) /\
    w_taskIDBlock w' = w_taskIDBlock w.
Proof.
  intros Hl Hc. unfold renewLeaseWithRetry, bind, get, RenewLease, modify, tlMgr_Stop.
  rewrite Hl.
  destruct (Stop_returns
              (set_db (mkTaskListDB (db_rangeID (db w)) (db_ackLevel (db w))
                         (committed (db w)) (S (leaseCalls (db w))) (createCalls (db w))) w))
    as (w' & Hstop & Hc' & Hdb & Hcfg & Hq & Hcap & Hblk & Hmrl); [exact Hc|].
  rewrite Hstop. exists w'. split; [reflexivity|]. split; [exact Hc'|].
  cbn in *. unfold alloc_frame. rewrite Hdb, Hcfg, Hq, Hcap, Hblk, Hmrl. cbn. auto 10.
Qed.

(** One more id: the id is the old [start]; the block is renewed first when
    it is used up. *)
Lemma allocTaskIDs_loop_spec togo : forall res w,
  block_inv w -> stop_consistent w -> headroom togo w ->
  returns (allocTaskIDs_loop env togo res w) (fun r w' =>
    block_inv w' /\ stop_consistent w' /\ alloc_frame w w' /\
    db_rangeID (db w) <= db_rangeID (db w') <= db_rangeID (db w) + Z.of_nat togo /\
    start (w_taskIDBlock w) <= start (w_taskIDBlock w') /\
    match r with
    | ROk ids =>
        ids = res ++ seqZ (start (w_taskIDBlock w)) (Z.of_nat togo) /\
        start (w_taskIDBlock w') = start (w_taskIDBlock w) + Z.of_nat togo
    | RErr e => lease_error env e
    end).
Proof.
  induction togo as [|togo IH]; intros res w Hinv Hc Hroom; cbn [allocTaskIDs_loop].
  - cbn [ret returns]. rewrite seqZ_nil, app_nil_r by lia.
    split; [exact Hinv|]. split; [exact Hc|].
    split; [unfold alloc_frame; auto 10|]. repeat split; lia.
  - destruct Hinv as (HR & Hk & Hend & Hlo & Hhi).
    unfold headroom in Hroom. rewrite max_int_value in Hroom.
    set (k := db_rangeID (db w)) in *. set (R := RangeSize (config w)) in *.
    assert (Hfit1 : (k + 1) * R <= (k + Z.of_nat (S togo)) * R) by nia.
    assert (HkR : k <= k * R) by nia.
    unfold bind at 1, get at 1. unfold bind at 1.
    destruct (Z.gtb_spec (start (w_taskIDBlock w)) (end_ (w_taskIDBlock w))) as [Hgt|Hle].
    + (* the block is used up *)
      unfold bind at 1, allocTaskIDBlock at 1, bind at 1, get at 1.
      fold k R. rewrite rangeIDToTaskIDBlock_exact by (rewrite ?max_int_value; lia).
      cbn [end_]. rewrite <- Hend, Z.eqb_refl. cbn [negb]. unfold bind at 1.
      destruct (leaseOutcome env (leaseCalls (db w))) as [e|] eqn:Hl.
      * destruct (renewLeaseWithRetry_refused w e Hl Hc)
          as (w' & Hrenew & Hc' & Hframe & Hk' & Hblk').
        rewrite Hrenew. cbn.
        destruct Hframe as (Hcfg & Hrest).
        split; [unfold block_inv; rewrite Hcfg, Hk', Hblk'; fold k R; auto|].
        split; [exact Hc'|]. split; [split; assumption|].
        rewrite Hk', Hblk'. fold k. split; [lia|]. split; [lia|].
        exists (leaseCalls (db w)). exact Hl.
      * rewrite (renewLeaseWithRetry_granted w Hl). fold k.
        assert (Hk1 : Int64.add k 1 = k + 1).
        { unfold Int64.add. apply wrap_small. unfold Int64.in_range.
          rewrite max_int_value, min_int_value. lia. }
        rewrite Hk1. cbn [ret rangeID]. fold R.
        rewrite rangeIDToTaskIDBlock_exact by (rewrite ?max_int_value; lia).
        unfold bind at 1, modify at 1. cbn [ret]. unfold bind at 1, get at 1.
        unfold bind at 1, modify at 1. simpl_writer.
        replace (k + 1 - 1) with k by lia.
        assert (Hid : Int64.add (k * R + 1) 1 = k * R + 2).
        { unfold Int64.add. rewrite wrap_small; [lia|]. unfold Int64.in_range.
          rewrite max_int_value, min_int_value. lia. }
        rewrite Hid.
        match goal with |- returns (allocTaskIDs_loop env togo _ ?w1) _ =>
          pose proof (IH (res ++ [k * R + 1]) w1) as IH1 end.
        match type of IH1 with ?A -> ?B -> ?C -> _ =>
          assert (H1 : A); [|assert (H2 : B); [|assert (H3 : C)]] end.
        { unfold block_inv. simpl_writer. fold R. repeat split; nia. }
        { exact Hc. }
        { unfold headroom. simpl_writer. fold R. rewrite max_int_value. nia. }
        specialize (IH1 H1 H2 H3). clear H1 H2 H3.
        destruct (allocTaskIDs_loop env togo _ _) as [r w'|]; [|exact IH1].
        cbn [returns] in *.
        destruct IH1 as (Hinv' & Hc' & Hframe & Hk' & Hs' & Hr).
        simpl_writer.
        split; [exact Hinv'|]. split; [exact Hc'|]. split; [exact Hframe|].
        assert (Hstart : start (w_taskIDBlock w) = k * R + 1) by lia.
        rewrite Hstart. split; [lia|]. split; [lia|].
        destruct r as [ids|e]; [|exact Hr].
        destruct Hr as (-> & Hs''). split; [|lia].
        rewrite <- app_assoc. f_equal. rewrite (seqZ_cons _ (Z.of_nat (S togo))) by lia.
        cbn [app]. do 2 f_equal; lia.
    + (* an id of the current block *)
      cbn [ret]. unfold bind at 1, get at 1. unfold bind at 1, modify at 1.
      assert (Hid : Int64.add (start (w_taskIDBlock w)) 1 = start (w_taskIDBlock w) + 1).
      { unfold Int64.add. apply wrap_small. unfold Int64.in_range.
        rewrite max_int_value, min_int_value. nia. }
      rewrite Hid.
      match goal with |- returns (allocTaskIDs_loop env togo _ ?w1) _ =>
        pose proof (IH (res ++ [start (w_taskIDBlock w)]) w1) as IH1 end.
      match type of IH1 with ?A -> ?B -> ?C -> _ =>
        assert (H1 : A); [|assert (H2 : B); [|assert (H3 : C)]] end.
      { unfold block_inv. simpl_writer. fold k R. repeat split; lia. }
      { exact Hc. }
      { unfold headroom. simpl_writer. fold k R. rewrite max_int_value. nia. }
      specialize (IH1 H1 H2 H3). clear H1 H2 H3.
      destruct (allocTaskIDs_loop env togo _ _) as [r w'|]; [|exact IH1].
      cbn [returns] in *.
      destruct IH1 as (Hinv' & Hc' & Hframe & Hk' & Hs' & Hr).
      simpl_writer.
      split; [exact Hinv'|]. split; [exact Hc'|]. split; [exact Hframe|].
      fold k in Hk'. split; [lia|]. split; [lia|].
      destruct r as [ids|e]; [|exact Hr].
      destruct Hr as (-> & Hs''). split; [|lia].
      rewrite <- app_assoc. f_equal. rewrite (seqZ_cons _ (Z.of_nat (S togo))) by lia.
      cbn [app]. do 2 f_equal; lia.
Qed.

Lemma seqZ_strictly_sorted n : forall m, StronglySorted Z.lt (seqZ m (Z.of_nat n)).
Proof.
  induction n as [|n IH]; intros m.
  - rewrite seqZ_nil by lia. constructor.
  - rewrite seqZ_cons by lia. constructor.
    + replace (Z.pred (Z.of_nat (S n))) with (Z.of_nat n) by lia. apply IH.
    + apply Forall_seqZ. intros. lia.
Qed.

(** One call: [count] consecutive ids from the old [start] on, or the error
    of a lease renewal. *)
Lemma allocTaskIDs_spec count w :
  block_inv w -> stop_consistent w -> headroom count w ->
  returns (allocTaskIDs env count w) (fun r w' =>
    block_inv w' /\ stop_consistent w' /\ alloc_frame w w' /\
    db_rangeID (db w) <= db_rangeID (db w') <= db_rangeID (db w) + Z.of_nat count /\
    start (w_taskIDBlock w) <= start (w_taskIDBlock w') /\
    match r with
    | ROk ids =>
        ids = seqZ (start (w_taskIDBlock w)) (Z.of_nat count) /\
        start (w_taskIDBlock w') = start (w_taskIDBlock w) + Z.of_nat count
    | RErr e => lease_error env e
    end).
Proof. intros. unfold allocTaskIDs. apply (allocTaskIDs_loop_spec count [] w); assumption. Qed.

Lemma allocTaskIDs_calls_spec counts : forall w,
  block_inv w -> stop_consistent w -> headroom (sum_list counts) w ->
  returns (allocTaskIDs_calls env counts w) (fun rs w' =>
    block_inv w' /\ stop_consistent w' /\
    start (w_taskIDBlock w) <= start (w_taskIDBlock w') /\
    Forall2 (fun count r =>
               match r with
               | ROk ids => length ids = count /\ StronglySorted Z.lt ids
               | RErr e => lease_error env e
               end) counts rs /\
    StronglySorted Z.lt (successes rs) /\
    Forall (fun id => start (w_taskIDBlock w) <= id < start (w_taskIDBlock w'))
      (successes rs)).
Proof.
  induction counts as [|count rest IH]; intros w Hinv Hc Hroom;
    cbn [allocTaskIDs_calls].
  - cbn [ret returns successes].
    split; [exact Hinv|]. split; [exact Hc|]. split; [lia|].
    repeat split; constructor.
  - change (sum_list (count :: rest)) with (count + sum_list rest)%nat in Hroom.
    pose proof (allocTaskIDs_spec count w Hinv Hc
                  (headroom_le (count + sum_list rest) count w ltac:(lia) Hinv Hroom))
      as Hcall.
    unfold bind at 1. destruct (allocTaskIDs env count w) as [r w1|]; [|exact Hcall].
    cbn [returns] in Hcall.
    destruct Hcall as (Hinv1 & Hc1 & Hframe & Hk1 & Hs1 & Hr).
    assert (Hroom1 : headroom (sum_list rest) w1).
    { destruct Hframe as (Hcfg & _). destruct Hinv as (HR & _).
      unfold headroom in *. rewrite Hcfg. rewrite max_int_value in *.
      rewrite Nat2Z.inj_add in Hroom. nia. }
    specialize (IH w1 Hinv1 Hc1 Hroom1).
    unfold bind at 1. destruct (allocTaskIDs_calls env rest w1) as [rs w'|]; [|exact IH].
    cbn [returns ret] in *.
    destruct IH as (Hinv' & Hc' & Hs' & Hall & Hsorted & Hbounds).
    split; [exact Hinv'|]. split; [exact Hc'|]. split; [lia|].
    destruct r as [ids|e]; cbn [successes].
    + destruct Hr as (-> & Hstart1).
      split.
      { constructor; [|exact Hall]. split.
        - rewrite length_seqZ. lia.
        - apply seqZ_strictly_sorted. }
      split.
      { apply StronglySorted_app; split; [|split].
        - intros x1 x2 Hx1 Hx2. apply elem_of_seqZ in Hx1.
          rewrite Forall_forall in Hbounds. specialize (Hbounds x2 Hx2). lia.
        - apply seqZ_strictly_sorted.
        - exact Hsorted. }
      apply Forall_app. split.
      * apply Forall_seqZ. intros. lia.
      * eapply Forall_impl; [exact Hbounds|]. cbn. intros. lia.
    + split; [constructor; [exact Hr | exact Hall]|].
      split; [exact Hsorted|].
      eapply Forall_impl; [exact Hbounds|]. cbn. intros. lia.
Qed.

End Allocation.

(** ** The watermark over the life of the writer *)

Section Watermark.

Variable env : Collaborators.

(** With ids [s, s+1, ...] for the requests, the loop over the batch leaves
    the id of the last request in [maxReadLevel]. *)
Lemma buildTasks_seqZ s n reqs : forall i tasks level,
  (i + length reqs <= n)%nat ->
  exists tasks',
    buildTasks reqs (seqZ s (Z.of_nat n)) i tasks level =
      Some (tasks', match reqs with
                    | [] => level
                    | _ => s + Z.of_nat (i + length reqs) - 1
                    end).
Proof.
  induction reqs as [|req rest IH]; intros i tasks level Hlen; cbn [buildTasks].
  - eexists. reflexivity.
  - cbn [length] in Hlen. rewrite lookup_seqZ_lt by lia.
    destruct (IH (S i) (tasks ++ [{| TaskID := s + Z.of_nat i;
                                     Execution := execution req;
                                     Data := taskInfo req |}])
                (s + Z.of_nat i) ltac:(lia)) as (tasks' & Hrest).
    exists tasks'. rewrite Hrest. f_equal. f_equal.
    destruct rest; cbn [length]; lia.
Qed.

(** One turn of the loop on a received request. *)
Lemma writeBatch_spec request budget w :
  block_inv w -> stop_consistent w ->
  maxReadLevel w < start (w_taskIDBlock w) ->
  headroom (S (length (appendCh w)) + budget) w ->
  returns (writeBatch env request w) (fun _ w' =>
    writer_inv budget w' /\ maxReadLevel w <= maxReadLevel w').
Proof.
  intros Hinv Hc Hmrl Hroom.
  unfold writeBatch. unfold bind at 1. rewrite getWriteBatch_spec.
  set (M := Z.to_nat (MaxTaskBatchSize (config w))).
  set (w1 := set_appendCh (drop M (appendCh w)) w).
  set (reqs := [request] ++ take M (appendCh w)).
  assert (Hn : length reqs = S (Nat.min M (length (appendCh w)))).
  { unfold reqs. cbn. rewrite length_take. reflexivity. }
  assert (Hq1 : length (appendCh w1) = (length (appendCh w) - M)%nat).
  { unfold w1. cbn. apply length_drop. }
  pose proof (allocTaskIDs_spec env (length reqs) w1) as Halloc.
  assert (Hroom1 : headroom (length reqs) w1).
  { apply (headroom_le (S (length (appendCh w)) + budget)); [lia | exact Hinv | exact Hroom]. }
  specialize (Halloc Hinv Hc Hroom1).
  unfold bind at 1. destruct (allocTaskIDs env (length reqs) w1) as [r w2|]; [|exact Halloc].
  cbn [returns] in Halloc.
  destruct Halloc as (Hinv2 & Hc2 & Hframe & Hk2 & Hs2 & Hr).
  destruct Hframe as (Hcfg2 & Hq2 & Hcap2 & Hmrl2 & Hcom2 & Hcalls2).
  assert (Hroom2 : headroom (length (appendCh w2) + budget) w2).
  { destruct Hinv as (HR & _). unfold headroom in *. rewrite Hcfg2, Hq2, Hq1.
    change (config w1) with (config w). change (db w1) with (db w) in Hk2.
    rewrite max_int_value in *. nia. }
  destruct r as [ids|e].
  - destruct Hr as (-> & Hstart2).
    destruct (buildTasks_seqZ (start (w_taskIDBlock w1)) (length reqs) reqs 0 [] 0
                ltac:(lia)) as (tasks & Hbuild).
    rewrite Hbuild.
    assert (Hreqs : forall x y : Z, match reqs with [] => x | _ :: _ => y end = y)
      by reflexivity.
    rewrite !Hreqs. cbn [Nat.add].
    set (level := start (w_taskIDBlock w1) + Z.of_nat (length reqs) - 1).
    assert (Hlevel : maxReadLevel w < level /\ 0 < level /\ level < start (w_taskIDBlock w2)).
    { unfold level. destruct Hinv as (HR & Hk & _ & Hlo & _).
      change (w_taskIDBlock w1) with (w_taskIDBlock w) in *. nia. }
    unfold bind at 1, get at 1.
    assert (Hdb : exists d, CreateTasks env tasks (db w2) = (fst (CreateTasks env tasks (db w2)), d) /\
                            db_rangeID d = db_rangeID (db w2)).
    { unfold CreateTasks. destruct (createTasksOutcome env _); eexists; split; reflexivity. }
    destruct Hdb as (d & Hcreate & Hd). rewrite Hcreate.
    unfold bind at 1, modify at 1.
    set (w3 := set_db d w2).
    assert (Hinv3 : block_inv w3) by (unfold block_inv in *; cbn; rewrite Hd; exact Hinv2).
    assert (Hc3 : stop_consistent w3) by exact Hc2.
    destruct (match fst (CreateTasks env tasks (db w2)) with
              | ROk r => (Some r, None)
              | RErr e => (None, Some e)
              end) as [resp e].
    destruct (handleErr env e) as [e' stops].
    unfold bind at 1.
    assert (Hstop : exists w4,
               (if stops then tlMgr_Stop else ret ()) w3 = Done () w4 /\
               stop_consistent w4 /\ db w4 = db w3 /\ config w4 = config w3 /\
               appendCh w4 = appendCh w3 /\ appendChCap w4 = appendChCap w3 /\
               w_taskIDBlock w4 = w_taskIDBlock w3 /\ maxReadLevel w4 = maxReadLevel w3).
    { destruct stops.
      - apply Stop_returns. exact Hc3.
      - exists w3. repeat split; auto. }
    destruct Hstop as (w4 & Hrun4 & Hc4 & Hdb4 & Hcfg4 & Hq4 & Hcap4 & Hblk4 & Hmrl4).
    rewrite Hrun4. unfold bind at 1.
    destruct (Z.gtb_spec level 0) as [_|Hneg]; [|lia].
    unfold modify. cbn [returns ret].
    split.
    + unfold writer_inv, block_inv, headroom. cbn.
      rewrite Hdb4, Hcfg4, Hblk4, Hq4. cbn. rewrite Hd.
      split; [exact Hinv2|]. split; [exact Hc4|]. split; [lia|]. exact Hroom2.
    + cbn. lia.
  - cbn [returns ret]. split.
    + unfold writer_inv. split; [exact Hinv2|]. split; [exact Hc2|].
      split; [|exact Hroom2]. rewrite Hmrl2. cbn. change (w_taskIDBlock w1) with (w_taskIDBlock w) in Hs2. lia.
    + rewrite Hmrl2. cbn. lia.
Qed.

Lemma writer_inv_weaken b b' w : (b' <= b)%nat -> writer_inv b w -> writer_inv b' w.
Proof.
  intros Hb (Hinv & Hc & Hmrl & Hroom).
  split; [exact Hinv|]. split; [exact Hc|]. split; [exact Hmrl|].
  apply (headroom_le (length (appendCh w) + b)); [lia | exact Hinv | exact Hroom].
Qed.

(** [Start] on a fresh writer sets up the invariant, with the watermark just
    below the first id of the block. *)
Lemma started_spec d c w0 s0 budget :
  newTaskWriter d c = Ok w0 ->
  0 <= db_rangeID d -> 0 < RangeSize c ->
  (db_rangeID d + 1 + Z.of_nat budget) * RangeSize c < Int64.max_int ->
  started env w0 = Ok s0 ->
  writer_inv budget (writer s0) /\
  maxReadLevel (writer s0) = start (w_taskIDBlock (writer s0)) - 1.
Proof.
  unfold newTaskWriter. destruct (OutstandingTaskAppendsThreshold c <? 0); [discriminate|].
  intros [= <-] Hk HR Hroom. rewrite max_int_value in Hroom.
  assert (HkR : db_rangeID d + 1 <= (db_rangeID d + 1) * RangeSize c) by nia.
  assert (Hfit : (db_rangeID d + 1) * RangeSize c
                 <= (db_rangeID d + 1 + Z.of_nat budget) * RangeSize c) by nia.
  unfold started, Start. unfold bind at 1.
  destruct (leaseOutcome env (leaseCalls d)) as [e|] eqn:Hl.
  - match goal with |- context [renewLeaseWithRetry env ?w] =>
      destruct (renewLeaseWithRetry_refused env w e Hl) as (w' & Hrenew & _) end.
    { left. split; reflexivity. }
    rewrite Hrenew. cbn. discriminate.
  - rewrite renewLeaseWithRetry_granted by exact Hl. simpl_writer.
    assert (Hk1 : Int64.add (db_rangeID d) 1 = db_rangeID d + 1).
    { unfold Int64.add. apply wrap_small. unfold Int64.in_range.
      rewrite max_int_value, min_int_value. lia. }
    rewrite Hk1.
    unfold bind at 1, modify at 1. unfold bind at 1, get at 1. simpl_writer.
    rewrite rangeIDToTaskIDBlock_exact by (rewrite ?max_int_value; lia).
    unfold bind at 1, modify at 1. unfold bind at 1, modify at 1. simpl_writer.
    replace (db_rangeID d + 1 - 1) with (db_rangeID d) by lia.
    assert (Hsub : Int64.sub (db_rangeID d * RangeSize c + 1) 1 = db_rangeID d * RangeSize c).
    { unfold Int64.sub. rewrite wrap_small; [lia|]. unfold Int64.in_range.
      rewrite max_int_value, min_int_value. nia. }
    rewrite Hsub. cbn [ret]. intros [= <-]. cbn [writer].
    unfold writer_inv, block_inv, stop_consistent, headroom. simpl_writer.
    cbn [length Nat.add]. rewrite max_int_value.
    repeat split; try lia; try nia. left. split; reflexivity.
Qed.

(** Every event keeps the invariant and never lowers the watermark. *)
Lemma step_spec ev budget s :
  writer_inv (S budget) (writer s) ->
  exists s',
    step env ev s = Ok s' /\ writer_inv budget (writer s') /\
    maxReadLevel (writer s) <= maxReadLevel (writer s').
Proof.
  intros Hinv. pose proof Hinv as (Hblk & Hc & Hmrl & Hroom).
  destruct ev as [e t ch| | |]; cbn [step].
  - unfold appendTask. destruct (isStopped (writer s)).
    + eexists. split; [reflexivity|]. cbn [writer].
      split; [eapply writer_inv_weaken; [|exact Hinv]; lia | lia].
    + destruct (length (appendCh (writer s)) <? appendChCap (writer s))%nat.
      * eexists. split; [reflexivity|]. cbn [writer]. split; [|cbn; lia].
        unfold writer_inv. split; [exact Hblk|]. split; [exact Hc|].
        split; [exact Hmrl|]. unfold headroom in *. simpl_writer.
        rewrite length_app. cbn [length].
        replace (length (appendCh (writer s)) + 1 + budget)%nat
          with (length (appendCh (writer s)) + S budget)%nat by lia.
        exact Hroom.
      * eexists. split; [reflexivity|]. cbn [writer].
        split; [eapply writer_inv_weaken; [|exact Hinv]; lia | lia].
  - destruct (Stop_returns (writer s) Hc)
      as (w' & Hstop & Hc' & Hdb & Hcfg & Hq & Hcap & Hblk' & Hmrl').
    rewrite Hstop. eexists. split; [reflexivity|]. cbn [writer].
    split; [|lia].
    unfold writer_inv, block_inv, headroom in *.
    rewrite Hdb, Hcfg, Hq, Hblk', Hmrl'.
    split; [exact Hblk|]. split; [exact Hc'|]. split; [exact Hmrl|].
    destruct Hblk as (HR & _). rewrite max_int_value in *. nia.
  - destruct (loop s);
      try (exists s; split; [reflexivity|];
           split; [eapply writer_inv_weaken; [|exact Hinv]; lia | lia]).
    destruct (appendCh (writer s)) as [|request rest] eqn:Hq.
    + exists s. split; [reflexivity|].
      split; [eapply writer_inv_weaken; [|exact Hinv]; lia | lia].
    + pose proof (writeBatch_spec request budget (set_appendCh rest (writer s))) as Hturn.
      cbn [length] in Hroom.
      assert (Hroom' : headroom (S (length (appendCh (set_appendCh rest (writer s)))) + budget)
                         (set_appendCh rest (writer s))).
      { apply (headroom_le (S (length rest) + S budget)); [cbn; lia | exact Hblk | exact Hroom]. }
      specialize (Hturn Hblk Hc Hmrl Hroom').
      destruct (writeBatch env request _) as [out w'|]; [|destruct Hturn].
      cbn [returns] in Hturn. destruct Hturn as (Hinv' & Hle).
      eexists. split; [reflexivity|]. cbn [writer]. split; [exact Hinv' | exact Hle].
  - destruct (loop s), (stopCh (writer s));
      eexists; (split; [reflexivity|]); cbn [writer];
      (split; [eapply writer_inv_weaken; [|exact Hinv]; lia | lia]).
Qed.

Lemma run_spec evs : forall budget s,
  writer_inv (length evs + budget) (writer s) ->
  exists s',
    run env evs s = Ok s' /\ writer_inv budget (writer s') /\
    maxReadLevel (writer s) <= maxReadLevel (writer s').
Proof.
  induction evs as [|ev evs IH]; intros budget s Hinv; cbn [run].
  - exists s. split; [reflexivity|]. split; [exact Hinv | lia].
  - destruct (step_spec ev (length evs + budget) s Hinv) as (s1 & Hstep & Hinv1 & Hle1).
    rewrite Hstep.
    destruct (IH budget s1 Hinv1) as (s' & Hrun & Hinv' & Hle').
    exists s'. split; [exact Hrun|]. split; [exact Hinv' | lia].
Qed.

(** C6.  After [Start], over any sequence of appends, stops and turns of
    the writer loop, the system keeps running without a panic and
    [maxReadLevel] never goes down: its value after a stretch of events is
    at least its value before, from the value [Start] stores onwards. *)
Theorem maxReadLevel_monotone (d : taskListDB) (c : taskListConfig)
  (w0 : taskWriter) (s0 : system) (evs1 evs2 : list event) :
  newTaskWriter d c = Ok w0 ->
  0 <= db_rangeID d ->
  0 < RangeSize c ->
  (db_rangeID d + 1 + Z.of_nat (length evs1 + length evs2)) * RangeSize c
    < Int64.max_int ->
  started env w0 = Ok s0 ->
  exists s1 s2,
    run env evs1 s0 = Ok s1 /\
    run env evs2 s1 = Ok s2 /\
    maxReadLevel (writer s0) <= maxReadLevel (writer s1) /\
    maxReadLevel (writer s1) <= maxReadLevel (writer s2).
Proof.
  intros Hnew Hk HR Hroom Hstart.
  destruct (started_spec d c w0 s0 (length evs1 + length evs2) Hnew Hk HR Hroom Hstart)
    as (Hinv0 & _).
  destruct (run_spec evs1 (length evs2) s0 Hinv0) as (s1 & Hrun1 & Hinv1 & Hle1).
  destruct (run_spec evs2 0%nat s1) as (s2 & Hrun2 & _ & Hle2).
  { replace (length evs2 + 0)%nat with (length evs2) by lia. exact Hinv1. }
  exists s1, s2. auto.
Qed.

End Watermark.

(** Two appends, a turn of the loop with a failing commit, then two more
    appends and another turn: the watermark goes 0, 2, 4. *)
Lemma maxReadLevel_monotone_witness :
  exists s0 s1 s2,
    started failingStore
      (mkTaskWriter freshDB smallConfig 0 [] 4 (mkTaskIDBlock 0 0) 0 0 Open) = Ok s0 /\
    run failingStore [EvAppend "wf" "a" 0; EvAppend "wf" "b" 1; EvLoopAppendCh] s0 = Ok s1 /\
    run failingStore [EvAppend "wf" "c" 2; EvAppend "wf" "d" 3; EvLoopAppendCh] s1 = Ok s2 /\
    maxReadLevel (writer s0) <= maxReadLevel (writer s1) /\
    maxReadLevel (writer s1) <= maxReadLevel (writer s2).
Proof.
  exists_result
    (started failingStore
       (mkTaskWriter freshDB smallConfig 0 [] 4 (mkTaskIDBlock 0 0) 0 0 Open)).
  match goal with |- exists s1 s2, started ?env ?w0 = Ok ?s0 /\ _ =>
    destruct (maxReadLevel_monotone env freshDB smallConfig w0 s0
                [EvAppend "wf" "a" 0; EvAppend "wf" "b" 1; EvLoopAppendCh]
                [EvAppend "wf" "c" 2; EvAppend "wf" "d" 3; EvLoopAppendCh])
      as (s1 & s2 & Hrun1 & Hrun2 & Hle1 & Hle2)
  end.
  - reflexivity.
  - cbn. lia.
  - cbn. lia.
  - cbn. rewrite max_int_value. lia.
  - vm_compute. reflexivity.
  - exists s1, s2. split; [vm_compute; reflexivity|]. auto.
Defined.

End MatchingFacts.

(** * Further properties of the partitioner *)

Module PartitionMore.
Import Partition PartitionFacts.

(** ** The zone-state handler *)

(** X1.  [Get] never invents a drain: a drained answer is the drained entry
    of the domain's zone configuration, or the entry of the global drain
    table, and the feature gate is on. *)
Theorem Get_drained_sound (z : DefaultZoneStateHandler) (domain : string)
  (zone : ZoneName) (zp : ZonePartition) :
  Get z domain zone = ROk zp ->
  Status zp = ZoneDrainStatusDrained ->
  zonalPartitioningEnabled (config z) domain = true /\
  exists info,
    GetDomain (domainCache z) domain = ROk info /\
    (ZoneConfig info !! zone = Some zp \/
     exists drains,
       GetClusterDrains (globalZoneDrains z) = ROk drains /\
       drains !! zone = Some zp).
Proof.
  unfold Get. intros Hget Hs.
  destruct (zonalPartitioningEnabled (config z) domain); cbn [negb] in Hget.
  2:{ injection Hget as <-. discriminate Hs. }
  split; [reflexivity|].
  destruct (GetDomain (domainCache z) domain) as [info|e]; [|discriminate].
  exists info. split; [reflexivity|].
  unfold map_index in Hget.
  destruct (ZoneConfig info !! zone) as [cfg|] eqn:Hc.
  - destruct (Status cfg =? ZoneDrainStatusDrained) eqn:Hd; cbn [andb] in Hget.
    + injection Hget as <-. left. reflexivity.
    + right. destruct (GetClusterDrains (globalZoneDrains z)) as [drains|e]; [|discriminate].
      exists drains. split; [reflexivity|].
      destruct (drains !! zone) as [g|].
      * injection Hget as <-. reflexivity.
      * injection Hget as <-. discriminate Hs.
  - cbn [andb] in Hget. right.
    destruct (GetClusterDrains (globalZoneDrains z)) as [drains|e]; [|discriminate].
    exists drains. split; [reflexivity|].
    destruct (drains !! zone) as [g|].
    + injection Hget as <-. reflexivity.
    + injection Hget as <-. discriminate Hs.
Qed.

(** On [oneDrained] the drained answer for [b] is the entry of the global
    table. *)
Lemma Get_drained_sound_witness :
  exists drains,
    GetClusterDrains (globalZoneDrains oneDrained) = ROk drains /\
    drains !! "b" = Some {| Name := "b"; Status := ZoneDrainStatusDrained |}.
Proof.
  destruct (Get_drained_sound oneDrained "d" "b"
              {| Name := "b"; Status := ZoneDrainStatusDrained |})
    as (_ & info & Hinfo & [Hdom | Hglobal]).
  - reflexivity.
  - reflexivity.
  - exfalso. injection Hinfo as <-. vm_compute in Hdom. discriminate Hdom.
  - exact Hglobal.
Defined.

(** X2.  [Get] fails in exactly two situations, both with the gate on: the
    domain cache does not resolve the domain; or the domain holds no drained
    entry for the zone and the global drain table cannot be read.  A drained
    per-domain entry is answered without reading the global table. *)
Theorem Get_error_iff (z : DefaultZoneStateHandler) (domain : string) (zone : ZoneName)
  (err : error) :
  Get z domain zone = RErr err <->
  zonalPartitioningEnabled (config z) domain = true /\
  ((exists e, GetDomain (domainCache z) domain = RErr e /\
              err = Errorf "could not resolve domain in zone handler" e) \/
   (exists info e,
      GetDomain (domainCache z) domain = ROk info /\
      ~ domainDrained info zone /\
      GetClusterDrains (globalZoneDrains z) = RErr e /\
      err = Errorf "could not resolve global drains in zone handler" e)).
Proof.
  split.
  - intros Hget.
    destruct (zonalPartitioningEnabled (config z) domain) eqn:He.
    2:{ rewrite (Get_disabled _ _ _ He) in Hget. discriminate. }
    split; [reflexivity|].
    destruct (GetDomain (domainCache z) domain) as [info|e] eqn:Hd.
    + right.
      destruct (ZoneConfig info !! zone) as [cfg|] eqn:Hc.
      * destruct (Z.eq_dec (Status cfg) ZoneDrainStatusDrained) as [Hs|Hs].
        { rewrite (Get_domain_drained _ _ _ _ _ He Hd Hc Hs) in Hget. discriminate. }
        assert (Hnd : ~ domainDrained info zone).
        { intros (cfg' & Hc' & Hs'). congruence. }
        rewrite (Get_falls_through _ _ _ _ He Hd Hnd) in Hget.
        destruct (GetClusterDrains (globalZoneDrains z)) as [drains|e].
        { destruct (drains !! zone); discriminate. }
        injection Hget as <-. exists info, e. auto.
      * assert (Hnd : ~ domainDrained info zone).
        { intros (cfg' & Hc' & _). congruence. }
        rewrite (Get_falls_through _ _ _ _ He Hd Hnd) in Hget.
        destruct (GetClusterDrains (globalZoneDrains z)) as [drains|e].
        { destruct (drains !! zone); discriminate. }
        injection Hget as <-. exists info, e. auto.
    + left. unfold Get in Hget. rewrite He, Hd in Hget. cbn in Hget.
      injection Hget as <-. exists e. auto.
  - intros (He & [(e & Hd & ->) | (info & e & Hd & Hnd & Hg & ->)]).
    + unfold Get. rewrite He, Hd. reflexivity.
    + rewrite (Get_falls_through _ _ _ _ He Hd Hnd), Hg. reflexivity.
Qed.

Lemma Get_gate_off z domain :
  zonalPartitioningEnabled (config z) domain = false ->
  forall zones out,
    ListAll_loop z domain zones out =
      ROk (out ++ map (fun zone => {| Name := zone; Status := ZoneDrainStatusHealthy |}) zones).
Proof.
  intros He zones. induction zones as [|zone rest IH]; intros out; cbn [ListAll_loop map].
  - rewrite app_nil_r. reflexivity.
  - rewrite (Get_disabled _ _ _ He), IH, <- app_assoc. reflexivity.
Qed.

(** X3.  With the feature gate off for the domain, [ListAll] reports every
    configured zone healthy, in order, without touching the domain cache or
    the drain table (which may both be failing). *)
Theorem ListAll_gate_off (z : DefaultZoneStateHandler) (domainID : string) :
  zonalPartitioningEnabled (config z) domainID = false ->
  ListAll z domainID =
    ROk (map (fun zone => {| Name := zone; Status := ZoneDrainStatusHealthy |})
           (allZonesList z)) /\
  healthyZones (map (fun zone => {| Name := zone; Status := ZoneDrainStatusHealthy |})
                  (allZonesList z)) = allZonesList z.
Proof.
  intros He. split.
  - unfold ListAll. rewrite (Get_gate_off _ _ He). reflexivity.
  - rewrite healthyZones_all_healthy.
    + rewrite map_map. cbn. apply map_id.
    + apply Forall_map. apply Forall_forall. intros. reflexivity.
Qed.

Lemma ListAll_gate_off_witness :
  ListAll gateOff "d" =
    ROk [ {| Name := "a"; Status := ZoneDrainStatusHealthy |};
          {| Name := "b"; Status := ZoneDrainStatusHealthy |};
          {| Name := "c"; Status := ZoneDrainStatusHealthy |} ].
Proof. apply (ListAll_gate_off gateOff "d"). reflexivity. Defined.

(** ** The partitioner *)

Section Routing.

Variable Hash32 : string -> Z.
Variable equalFold : string -> string -> bool.

(** With a healthy zone in the listing, the index is within the list of
    healthy zones. *)
Lemma pickZoneAfterDrain_some_healthy (zones : list ZonePartition)
  (wfConfig : DefaultPartitionConfig) :
  healthyZones zones <> [] ->
  exists zone,
    pickZoneAfterDrain Hash32 zones wfConfig = Ok zone /\ In zone (healthyZones zones).
Proof.
  intros Hne. unfold pickZoneAfterDrain. rewrite availableZones_loop_spec. cbn [app].
  set (avail := healthyZones zones) in *.
  pose proof (uint32_range (Hash32 (RunID wfConfig))) as Hr.
  assert (Hlen : 0 < Z.of_nat (length avail)).
  { destruct avail; [congruence | cbn [length]; lia]. }
  destruct (Z.eqb_spec (Z.of_nat (length avail)) 0) as [H0|_]; [lia|].
  rewrite Z.rem_mod_nonneg by lia.
  pose proof (Z.mod_pos_bound (uint32 (Hash32 (RunID wfConfig)))
                (Z.of_nat (length avail)) Hlen) as Hidx.
  destruct (lookup_lt_is_Some_2 avail
              (Z.to_nat (uint32 (Hash32 (RunID wfConfig)) mod Z.of_nat (length avail))))
    as [zone Hzone]; [lia|].
  rewrite Hzone. exists zone. split; [reflexivity|].
  apply list_elem_of_In. eapply list_elem_of_lookup_2. exact Hzone.
Qed.

Lemma pickZoneAfterDrain_ends (zones : list ZonePartition)
  (wfConfig : DefaultPartitionConfig) :
  pickZoneAfterDrain Hash32 zones wfConfig = Panic "runtime error: integer divide by zero"
  \/ exists zone,
       pickZoneAfterDrain Hash32 zones wfConfig = Ok zone /\ In zone (healthyZones zones).
Proof.
  destruct (healthyZones zones) as [|z0 rest] eqn:Hh.
  - left. apply pickZoneAfterDrain_no_healthy, Hh.
  - right. rewrite <- Hh. apply pickZoneAfterDrain_some_healthy. congruence.
Qed.

(** X4.  [pickZoneAfterDrain] has two ways to end: the division by zero when
    no zone of the listing is healthy, or a zone that is the name of a healthy
    entry of the listing.  It never indexes outside the list of healthy
    zones. *)
Theorem pickZoneAfterDrain_cases (zones : list ZonePartition)
  (wfConfig : DefaultPartitionConfig) :
  (healthyZones zones = [] /\
   pickZoneAfterDrain Hash32 zones wfConfig =
     Panic "runtime error: integer divide by zero")
  \/
  (exists zone,
     pickZoneAfterDrain Hash32 zones wfConfig = Ok zone /\
     In zone (healthyZones zones) /\
     exists zp, In zp zones /\ Name zp = zone /\ Status zp = ZoneDrainStatusHealthy).
Proof.
  destruct (healthyZones zones) as [|z0 rest] eqn:Hh.
  - left. split; [reflexivity|]. apply pickZoneAfterDrain_no_healthy, Hh.
  - right.
    destruct (pickZoneAfterDrain_some_healthy zones wfConfig) as (zone & Hpick & Hin).
    { congruence. }
    exists zone. split; [exact Hpick|]. split; [rewrite <- Hh; exact Hin|].
    unfold healthyZones in Hin. apply in_map_iff in Hin. destruct Hin as (zp & Hname & Hzp).
    apply list_elem_of_In, list_elem_of_filter in Hzp. destruct Hzp as (Hs & Hzp).
    exists zp. split; [apply list_elem_of_In; exact Hzp|]. auto.
Qed.

(** X5.  Whatever [GetTaskZone] returns as a zone is either the start zone of
    the hint, found not drained, or the name of a healthy entry of the
    listing, the start zone having been found drained. *)
Theorem GetTaskZone_result_origin (r : DefaultPartitioner) (DomainID : string)
  (key : PartitionConfig) (zone : ZoneName) :
  GetTaskZone Hash32 equalFold r DomainID key = Ok zone ->
  exists partitionData,
    json_Unmarshal equalFold key DefaultPartitionConfig_zero = (partitionData, None) /\
    ((IsDrained r DomainID (WorkflowStartZone partitionData) = ROk false /\
      zone = WorkflowStartZone partitionData)
     \/
     (IsDrained r DomainID (WorkflowStartZone partitionData) = ROk true /\
      exists zones,
        zs_ListAll (drainState r) DomainID = ROk zones /\
        In zone (healthyZones zones))).
Proof.
  unfold GetTaskZone.
  destruct (json_Unmarshal equalFold key DefaultPartitionConfig_zero) as [pd [e|]];
    [discriminate|].
  intros H. exists pd. split; [reflexivity|].
  destruct (IsDrained r DomainID (WorkflowStartZone pd)) as [[|]|e]; [| |discriminate].
  - right. split; [reflexivity|].
    destruct (zs_ListAll (drainState r) DomainID) as [zones|e]; [|discriminate].
    exists zones. split; [reflexivity|].
    destruct (pickZoneAfterDrain_ends zones pd) as [Hp | (z' & Hp & Hin)];
      rewrite Hp in H; [discriminate|].
    injection H as <-. exact Hin.
  - left. split; [reflexivity|]. injection H as <-. reflexivity.
Qed.

(** X6.  With the feature gate off for the domain, the default zone-state
    handler routes every hint that decodes to its own start zone; run-id,
    hash, domain cache and drain table play no part. *)
Theorem GetTaskZone_gate_off (z : DefaultZoneStateHandler) (DomainID : string)
  (key : PartitionConfig) (partitionData : DefaultPartitionConfig) :
  zonalPartitioningEnabled (config z) DomainID = false ->
  json_Unmarshal equalFold key DefaultPartitionConfig_zero = (partitionData, None) ->
  GetTaskZone Hash32 equalFold (partitionerOf z) DomainID key =
    Ok (WorkflowStartZone partitionData).
Proof.
  intros He Hdec. unfold GetTaskZone, IsDrained. rewrite Hdec.
  cbn [partitionerOf drainState handlerZoneState zs_Get].
  rewrite (Get_disabled _ _ _ He). reflexivity.
Qed.

(** X7.  [GetTaskZone] is handed a domain ID but resolves it through the
    lookups keyed by domain name: two handlers that differ only in
    [GetDomainByID] route every hint alike. *)
Theorem GetTaskZone_ignores_GetDomainByID (z z' : DefaultZoneStateHandler)
  (DomainID : string) (key : PartitionConfig) :
  GetDomain (domainCache z) = GetDomain (domainCache z') ->
  globalZoneDrains z = globalZoneDrains z' ->
  allZonesList z = allZonesList z' ->
  config z = config z' ->
  GetTaskZone Hash32 equalFold (partitionerOf z) DomainID key =
  GetTaskZone Hash32 equalFold (partitionerOf z') DomainID key.
Proof.
  intros Hd Hg Ha Hc.
  assert (HGet : forall domain zone, Get z domain zone = Get z' domain zone).
  { intros. unfold Get. rewrite Hd, Hg, Hc. reflexivity. }
  assert (HList : forall zones out,
            ListAll_loop z DomainID zones out = ListAll_loop z' DomainID zones out).
  { induction zones as [|zone rest IH]; intros out; cbn [ListAll_loop]; [reflexivity|].
    rewrite HGet. destruct (Get z' DomainID zone); [apply IH | reflexivity]. }
  unfold GetTaskZone, IsDrained.
  cbn [partitionerOf drainState handlerZoneState zs_Get zs_ListAll].
  unfold ListAll. rewrite Ha.
  destruct (json_Unmarshal equalFold key DefaultPartitionConfig_zero) as [pd [e|]];
    [reflexivity|].
  rewrite HGet, HList. reflexivity.
Qed.

End Routing.

(** On [oneDrained], the hint that starts in the drained zone [b] is routed
    to a healthy zone of the listing. *)
Lemma GetTaskZone_result_origin_witness :
  exists zones,
    zs_ListAll (drainState (partitionerOf oneDrained)) "d" = ROk zones /\
    In "c" (healthyZones zones).
Proof.
  destruct (GetTaskZone_result_origin (fun _ => 7) String.eqb (partitionerOf oneDrained) "d"
              (Some (JObject [("wf-start-zone", JString "b"); ("run-id", JString "r1")]))
              "c")
    as (pd & Hdec & [(Hnot & _) | (_ & Hpick)]).
  - reflexivity.
  - exfalso. injection Hdec as <-. vm_compute in Hnot. discriminate Hnot.
  - exact Hpick.
Defined.

Lemma GetTaskZone_gate_off_witness :
  GetTaskZone (fun _ => 7) String.eqb (partitionerOf gateOff) "d"
    (Some (JObject [("wf-start-zone", JString "b"); ("run-id", JString "r1")])) = Ok "b".
Proof.
  apply (GetTaskZone_gate_off (fun _ => 7) String.eqb gateOff "d" _
           {| WorkflowStartZone := "b"; RunID := "r1" |}); reflexivity.
Defined.

(** [oneDrained] with a by-ID lookup that knows no domain routes as
    [oneDrained] does. *)
Lemma GetTaskZone_ignores_GetDomainByID_witness :
  GetTaskZone (fun _ => 7) String.eqb
    (partitionerOf
       (mkDefaultZoneStateHandler
          (mkDomainCache (GetDomain (domainCache oneDrained))
             (fun _ => RErr (ExternalError "no such domain")))
          (globalZoneDrains oneDrained) (allZonesList oneDrained) (config oneDrained)))
    "d" (Some (JObject [("wf-start-zone", JString "b"); ("run-id", JString "r1")]))
  = Ok "c".
Proof.
  rewrite <- (GetTaskZone_ignores_GetDomainByID (fun _ => 7) String.eqb oneDrained
                (mkDefaultZoneStateHandler
                   (mkDomainCache (GetDomain (domainCache oneDrained))
                      (fun _ => RErr (ExternalError "no such domain")))
                   (globalZoneDrains oneDrained) (allZonesList oneDrained)
                   (config oneDrained))
                "d" _ eq_refl eq_refl eq_refl eq_refl).
  vm_compute. reflexivity.
Defined.

(** ** Decoding the hint *)

Section Decoding.

Variable Hash32 : string -> Z.
Variable equalFold : string -> string -> bool.

Lemma decode_members_error_sticky members : forall d e,
  snd (decode_members equalFold members (d, Some e)) = Some e.
Proof.
  induction members as [|[k v] rest IH]; intros d e; cbn [decode_members]; [reflexivity|].
  destruct (field_of_key equalFold k) as [f|]; [|apply IH].
  destruct v, f; cbn [store_field]; apply IH.
Qed.

Lemma store_field_fits f v d :
  fits_string_field v -> snd (store_field f v (d, None)) = None.
Proof. intros [-> | (s & ->)]; destruct f; reflexivity. Qed.

Lemma store_field_misfit f v d :
  ~ fits_string_field v -> store_field f v (d, None) = (d, Some UnmarshalTypeError).
Proof.
  intros Hno. destruct v; try reflexivity.
  - exfalso. apply Hno. left. reflexivity.
  - exfalso. apply Hno. right. eexists. reflexivity.
Qed.

Lemma fits_string_field_dec v : fits_string_field v \/ ~ fits_string_field v.
Proof.
  destruct v; try (right; intros [H | (s' & H)]; discriminate).
  - left. left. reflexivity.
  - left. right. eexists. reflexivity.
Qed.

Lemma decode_members_ok_iff members : forall d,
  snd (decode_members equalFold members (d, None)) = None <->
  Forall (fun member => field_of_key equalFold (fst member) = None \/
                        fits_string_field (snd member)) members.
Proof.
  induction members as [|[k v] rest IH]; intros d; cbn [decode_members].
  - split; [constructor | reflexivity].
  - destruct (field_of_key equalFold k) as [f|] eqn:Hk.
    + destruct (fits_string_field_dec v) as [Hfit | Hmis].
      * pose proof (store_field_fits f v d Hfit) as Hs.
        destruct (store_field f v (d, None)) as [d' saved]. cbn in Hs. subst saved.
        rewrite IH. split.
        -- intros H. constructor; [right; exact Hfit | exact H].
        -- intros H. inversion H; assumption.
      * rewrite (store_field_misfit f v d Hmis), decode_members_error_sticky. split.
        -- discriminate.
        -- intros H. inversion H as [|m ms [Hnone | Hfit] Hrest]; subst; cbn [fst snd] in *.
           ++ congruence.
           ++ contradiction.
    + rewrite IH. split.
      * intros H. constructor; [left; exact Hk | exact H].
      * intros H. inversion H; assumption.
Qed.

Lemma json_Unmarshal_ok_iff key d :
  snd (json_Unmarshal equalFold key d) = None <-> hint_decodes equalFold key.
Proof.
  unfold hint_decodes. destruct key as [[| | | | |members]|]; cbn [json_Unmarshal snd].
  all: try (split; [discriminate | intros [H | (ms & H & _)]; discriminate]).
  - split; [left; reflexivity | reflexivity].
  - rewrite decode_members_ok_iff. split.
    + intros H. right. exists members. auto.
    + intros [H | (ms & H & Hall)]; [discriminate|]. injection H as <-. exact Hall.
Qed.

(** X8.  [GetTaskZone] returns the decode error for exactly the hints that do
    not decode: bytes that are not JSON, a JSON value that is neither an
    object nor [null], or an object giving a recognised key a value that is
    neither a string nor [null].  No lookup is made for such a hint. *)
Theorem GetTaskZone_decode_error_iff (r : DefaultPartitioner) (DomainID : string)
  (key : PartitionConfig) :
  (exists e, GetTaskZone Hash32 equalFold r DomainID key =
             Err (Errorf "failed to decode partition config" e))
  <-> ~ hint_decodes equalFold key.
Proof.
  rewrite <- (json_Unmarshal_ok_iff key DefaultPartitionConfig_zero).
  unfold GetTaskZone.
  destruct (json_Unmarshal equalFold key DefaultPartitionConfig_zero) as [pd [e|]];
    cbn [snd].
  - split; [discriminate | intros _; exists e; reflexivity].
  - split; [|congruence]. intros (e & H). exfalso.
    destruct (IsDrained r DomainID (WorkflowStartZone pd)) as [[|]|e']; try discriminate.
    destruct (zs_ListAll (drainState r) DomainID) as [zones|e']; [|discriminate].
    destruct (pickZoneAfterDrain_ends Hash32 zones pd) as [Hp | (z' & Hp & _)];
      rewrite Hp in H; discriminate.
Qed.

Lemma store_field_keeps_start f v st :
  (f = FWorkflowStartZone -> forall s, v <> JString s) ->
  WorkflowStartZone (fst (store_field f v st)) = WorkflowStartZone (fst st).
Proof.
  intros Hno. destruct st as [d saved].
  destruct v; try reflexivity. destruct f; [|reflexivity].
  exfalso. eapply Hno; reflexivity.
Qed.

Lemma decode_members_keeps_start members : forall st,
  (forall k v, In (k, v) members ->
     field_of_key equalFold k = Some FWorkflowStartZone -> forall s, v <> JString s) ->
  WorkflowStartZone (fst (decode_members equalFold members st)) =
  WorkflowStartZone (fst st).
Proof.
  induction members as [|[k v] rest IH]; intros st Hno; [reflexivity|].
  cbn [decode_members].
  assert (Hrest : forall k' v', In (k', v') rest ->
            field_of_key equalFold k' = Some FWorkflowStartZone ->
            forall s, v' <> JString s).
  { intros k' v' Hin. apply (Hno k' v'). right. exact Hin. }
  destruct (field_of_key equalFold k) as [f|] eqn:Hk; [|apply IH, Hrest].
  rewrite IH by exact Hrest. apply store_field_keeps_start.
  intros -> s. apply (Hno k v); [left; reflexivity | exact Hk].
Qed.

(** X9.  When the hint names the start zone more than once, the last string
    given for it is the one decoded; a later [null] (or a value of another
    type) for the key does not take it back. *)
Theorem json_Unmarshal_last_start_zone_wins (pre post : list (string * json))
  (k : string) (s : string) (d : DefaultPartitionConfig) :
  field_of_key equalFold k = Some FWorkflowStartZone ->
  (forall k' v', In (k', v') post ->
     field_of_key equalFold k' = Some FWorkflowStartZone -> forall s', v' <> JString s') ->
  WorkflowStartZone
    (fst (json_Unmarshal equalFold (Some (JObject (pre ++ (k, JString s) :: post))) d)) = s.
Proof.
  intros Hk Hpost. cbn [json_Unmarshal].
  rewrite decode_members_app. cbn [decode_members]. rewrite Hk.
  rewrite decode_members_keeps_start by exact Hpost.
  destruct (decode_members equalFold pre (d, None)) as [d' saved]. reflexivity.
Qed.

End Decoding.

(** The hint [{"wf-start-zone": 7}] does not decode. *)
Lemma GetTaskZone_decode_error_iff_witness :
  exists e,
    GetTaskZone (fun _ => 7) String.eqb (partitionerOf gateOff) "d"
      (Some (JObject [("wf-start-zone", JNumber "7")]))
    = Err (Errorf "failed to decode partition config" e).
Proof.
  apply (GetTaskZone_decode_error_iff (fun _ => 7) String.eqb (partitionerOf gateOff) "d").
  intros [H | (ms & H & Hall)]; [discriminate|].
  injection H as <-. inversion Hall as [|m l [Hnone | [Hnull | (s & Hstr)]] _]; subst;
    discriminate.
Defined.

(** [{"wf-start-zone": "a", "wf-start-zone": "b", "wf-start-zone": null}]
    decodes to the start zone [b]. *)
Lemma json_Unmarshal_last_start_zone_wins_witness :
  WorkflowStartZone
    (fst (json_Unmarshal String.eqb
            (Some (JObject [("wf-start-zone", JString "a"); ("wf-start-zone", JString "b");
                            ("wf-start-zone", JNull)]))
            DefaultPartitionConfig_zero)) = "b".
Proof.
  apply (json_Unmarshal_last_start_zone_wins String.eqb
           [("wf-start-zone", JString "a")] [("wf-start-zone", JNull)] "wf-start-zone" "b").
  - reflexivity.
  - intros k' v' [Hin | []] _ s' Hs. injection Hin as <- <-. discriminate Hs.
Defined.

End PartitionMore.

(** * Further properties of the task writer *)

Module MatchingMore.
Import Matching Int64Facts MatchingFacts.

Section Allocating.

Variable env : Collaborators.

Lemma alloc_frame_refl w : alloc_frame w w.
Proof. unfold alloc_frame. auto 10. Qed.

Lemma alloc_frame_trans w1 w2 w3 :
  alloc_frame w1 w2 -> alloc_frame w2 w3 -> alloc_frame w1 w3.
Proof.
  unfold alloc_frame. intros (A1 & A2 & A3 & A4 & A5 & A6) (B1 & B2 & B3 & B4 & B5 & B6).
  repeat split; congruence.
Qed.

(** What a lease renewal does to the writer, when it returns. *)
Lemma renewLeaseWithRetry_effect w r w' :
  renewLeaseWithRetry env w = Done r w' ->
  alloc_frame w w' /\
  match r with
  | ROk state =>
      leaseOutcome env (leaseCalls (db w)) = None /\
      stopped w' = stopped w /\ stopCh w' = stopCh w /\
      w_taskIDBlock w' = w_taskIDBlock w
  | RErr e =>
      leaseOutcome env (leaseCalls (db w)) = Some e /\
      (stop_consistent w -> stopped w' = 1 /\ stopCh w' = Closed) /\
      db_rangeID (db w') = db_rangeID (db w) /\
      w_taskIDBlock w' = w_taskIDBlock w
  end.
Proof.
  unfold renewLeaseWithRetry, bind, get, modify, RenewLease, tlMgr_Stop.
  destruct (leaseOutcome env (leaseCalls (db w))) as [e|] eqn:Hl.
  - destruct (Stop _) as [[] w1|] eqn:Hstop; [|discriminate].
    cbn [ret]. intros [= <- <-].
    assert (Hsame : stopped w1 = 1 \/ w1 =
              set_db (mkTaskListDB (db_rangeID (db w)) (db_ackLevel (db w))
                        (committed (db w)) (S (leaseCalls (db w))) (createCalls (db w))) w).
    { unfold Stop in Hstop. simpl_writer.
      destruct (stopped w =? 0); [|injection Hstop as <-; right; reflexivity].
      destruct (stopCh w); [|discriminate]. injection Hstop as <-. left. reflexivity. }
    assert (Hfields : alloc_frame w w1 /\ db_rangeID (db w1) = db_rangeID (db w) /\
                      w_taskIDBlock w1 = w_taskIDBlock w).
    { unfold Stop in Hstop. simpl_writer. unfold alloc_frame.
      destruct (stopped w =? 0).
      - destruct (stopCh w); [|discriminate]. injection Hstop as <-. simpl_writer. auto 10.
      - injection Hstop as <-. simpl_writer. auto 10. }
    destruct Hfields as (Hframe & Hk & Hb).
    split; [exact Hframe|]. split; [reflexivity|]. split; [|auto].
    intros Hc. eapply Stop_stops; [|exact Hstop]. exact Hc.
  - cbn [ret]. intros [= <- <-]. simpl_writer.
    split; [unfold alloc_frame; simpl_writer; auto 10|]. auto.
Qed.

(** What [allocTaskIDs] leaves alone and how it can fail, when it returns. *)
Lemma allocTaskIDs_loop_effect togo : forall res w r w',
  allocTaskIDs_loop env togo res w = Done r w' ->
  alloc_frame w w' /\
  match r with
  | ROk ids => length ids = (length res + togo)%nat
  | RErr e =>
      (e = InvalidStateError /\ stopped w' = stopped w /\ stopCh w' = stopCh w) \/
      (lease_error env e /\ (stop_consistent w -> stopped w' = 1 /\ stopCh w' = Closed))
  end.
Proof.
  induction togo as [|togo IH]; intros res w r w'; cbn [allocTaskIDs_loop].
  - cbn [ret]. intros [= <- <-]. split; [apply alloc_frame_refl | lia].
  - unfold bind at 1, get at 1. unfold bind at 1.
    destruct (start (w_taskIDBlock w) >? end_ (w_taskIDBlock w)).
    + unfold bind at 1, allocTaskIDBlock at 1, bind at 1, get at 1.
      destruct (negb _).
      * cbn [ret]. intros [= <- <-].
        split; [apply alloc_frame_refl|]. left. auto.
      * unfold bind at 1.
        destruct (renewLeaseWithRetry env w) as [[state|e] w1|] eqn:Hrenew;
          [| |discriminate];
          destruct (renewLeaseWithRetry_effect w _ w1 Hrenew) as (Hframe1 & Hr1).
        -- cbn [ret]. unfold bind at 1, modify at 1. cbn [ret].
           unfold bind at 1, get at 1. unfold bind at 1, modify at 1.
           intros Hrest. apply IH in Hrest. destruct Hrest as (Hframe2 & Hr2).
           destruct Hr1 as (_ & Hs1 & Hc1 & _).
           split.
           { eapply alloc_frame_trans; [exact Hframe1|].
             unfold alloc_frame in *. simpl_writer. exact Hframe2. }
           destruct r as [ids|e]; [rewrite length_app in Hr2; cbn [length] in Hr2; lia|].
           simpl_writer.
           destruct Hr2 as [(-> & Hs2 & Hc2) | (Hle & Hstop)].
           ++ left. split; [reflexivity|]. split; congruence.
           ++ right. split; [exact Hle|]. intros Hc. apply Hstop.
              unfold stop_consistent in *. simpl_writer. rewrite Hs1, Hc1. exact Hc.
        -- cbn [ret]. intros [= <- <-].
           split; [exact Hframe1|]. right.
           destruct Hr1 as (Hl & Hstop & _).
           split; [exists (leaseCalls (db w)); exact Hl | exact Hstop].
    + cbn [ret]. unfold bind at 1, get at 1. unfold bind at 1, modify at 1.
      intros Hrest. apply IH in Hrest. destruct Hrest as (Hframe2 & Hr2).
      split; [unfold alloc_frame in *; simpl_writer; exact Hframe2|].
      destruct r as [ids|e]; [rewrite length_app in Hr2; cbn [length] in Hr2; lia|].
      exact Hr2.
Qed.

(** X10.  An error of [allocTaskIDs] is either the invalid-state error, and
    then the stop state of the writer is as before, or the error of a lease
    renewal, and then the writer has been stopped.  In both cases nothing
    else that callers see has changed: queue, watermark, store. *)
Theorem allocTaskIDs_error_origin (count : nat) (w w' : taskWriter) (e : error) :
  allocTaskIDs env count w = Done (RErr e) w' ->
  stop_consistent w ->
  alloc_frame w w' /\
  ((e = InvalidStateError /\ stopped w' = stopped w /\ stopCh w' = stopCh w) \/
   (lease_error env e /\ stopped w' = 1 /\ stopCh w' = Closed)).
Proof.
  unfold allocTaskIDs. intros H Hc.
  destruct (allocTaskIDs_loop_effect count [] w _ w' H) as (Hframe & [Hinv | (Hle & Hstop)]).
  - split; [exact Hframe|]. left. exact Hinv.
  - split; [exact Hframe|]. right. split; [exact Hle | exact (Hstop Hc)].
Qed.

Lemma allocTaskIDs_loop_within_block togo : forall res w,
  Int64.min_int <= start (w_taskIDBlock w) ->
  start (w_taskIDBlock w) + Z.of_nat togo - 1 <= end_ (w_taskIDBlock w) ->
  end_ (w_taskIDBlock w) < Int64.max_int ->
  allocTaskIDs_loop env togo res w =
    Done (ROk (res ++ seqZ (start (w_taskIDBlock w)) (Z.of_nat togo)))
         (set_taskIDBlock
            {| start := start (w_taskIDBlock w) + Z.of_nat togo;
               end_ := end_ (w_taskIDBlock w) |} w).
Proof.
  induction togo as [|togo IH]; intros res w Hmin Hfit Hmax; cbn [allocTaskIDs_loop].
  - rewrite seqZ_nil, app_nil_r, Z.add_0_r by lia. destruct w as [? ? ? ? ? [? ?] ? ? ?].
    reflexivity.
  - unfold bind at 1, get at 1. unfold bind at 1.
    destruct (Z.gtb_spec (start (w_taskIDBlock w)) (end_ (w_taskIDBlock w))) as [Hgt|_];
      [lia|].
    cbn [ret]. unfold bind at 1, get at 1. unfold bind at 1, modify at 1.
    assert (Hid : Int64.add (start (w_taskIDBlock w)) 1 = start (w_taskIDBlock w) + 1).
    { unfold Int64.add. apply wrap_small. unfold Int64.in_range. lia. }
    rewrite Hid, IH by (simpl_writer; lia). simpl_writer.
    rewrite <- app_assoc, (seqZ_cons _ (Z.of_nat (S togo))) by lia. cbn [app].
    unfold set_taskIDBlock. simpl_writer.
    replace (Z.pred (Z.of_nat (S togo))) with (Z.of_nat togo) by lia.
    replace (start (w_taskIDBlock w) + 1 + Z.of_nat togo)
      with (start (w_taskIDBlock w) + Z.of_nat (S togo)) by lia.
    reflexivity.
Qed.

(** X11.  While the current block has enough ids left, [allocTaskIDs] hands
    out the next [count] consecutive ids and only moves [start]: no lease is
    renewed, the call cannot fail. *)
Theorem allocTaskIDs_within_block (count : nat) (w : taskWriter) :
  Int64.min_int <= start (w_taskIDBlock w) ->
  start (w_taskIDBlock w) + Z.of_nat count - 1 <= end_ (w_taskIDBlock w) ->
  end_ (w_taskIDBlock w) < Int64.max_int ->
  allocTaskIDs env count w =
    Done (ROk (seqZ (start (w_taskIDBlock w)) (Z.of_nat count)))
         (set_taskIDBlock
            {| start := start (w_taskIDBlock w) + Z.of_nat count;
               end_ := end_ (w_taskIDBlock w) |} w).
Proof.
  intros. unfold allocTaskIDs.
  rewrite allocTaskIDs_loop_within_block by assumption. reflexivity.
Qed.

(** X12.  When the block is used up and the range-id held by the db no
    longer ends where the block ends, [allocTaskIDs] gives up with the
    invalid-state error before it asks for a lease: no renewal is attempted
    and the writer is left exactly as it was. *)
Theorem allocTaskIDs_invalid_state (count : nat) (w : taskWriter) :
  start (w_taskIDBlock w) > end_ (w_taskIDBlock w) ->
  end_ (rangeIDToTaskIDBlock (db_rangeID (db w)) (RangeSize (config w)))
    <> end_ (w_taskIDBlock w) ->
  allocTaskIDs env (S count) w = Done (RErr InvalidStateError) w.
Proof.
  intros Hgt Hne. unfold allocTaskIDs. cbn [allocTaskIDs_loop].
  unfold bind at 1, get at 1. unfold bind at 1.
  destruct (Z.gtb_spec (start (w_taskIDBlock w)) (end_ (w_taskIDBlock w))) as [_|Hle];
    [|lia].
  unfold bind at 1, allocTaskIDBlock at 1, bind at 1, get at 1.
  apply Z.eqb_neq in Hne. rewrite Hne. reflexivity.
Qed.


End Allocating.

(** On a store that refuses leases, a call that needs a new block fails
    with the lease error and stops the writer. *)
Lemma allocTaskIDs_error_origin_witness :
  exists w',
    allocTaskIDs
      (mkCollaborators (fun _ => Some (ExternalError "lease lost")) (fun _ => None)
         (fun e => (e, false)))
      2 (mkTaskWriter (mkTaskListDB 1 0 [] 1 0) smallConfig 0 [] 4 (mkTaskIDBlock 10 10) 9 0 Open)
    = Done (RErr (ExternalError "lease lost")) w' /\
    stopped w' = 1.
Proof.
  exists_result
    (allocTaskIDs
       (mkCollaborators (fun _ => Some (ExternalError "lease lost")) (fun _ => None)
          (fun e => (e, false)))
       2 (mkTaskWriter (mkTaskListDB 1 0 [] 1 0) smallConfig 0 [] 4 (mkTaskIDBlock 10 10) 9 0
            Open)).
  split; [vm_compute; reflexivity|].
  match goal with |- stopped ?w' = 1 =>
    destruct (allocTaskIDs_error_origin
                (mkCollaborators (fun _ => Some (ExternalError "lease lost")) (fun _ => None)
                   (fun e => (e, false)))
                2 (mkTaskWriter (mkTaskListDB 1 0 [] 1 0) smallConfig 0 [] 4
                     (mkTaskIDBlock 10 10) 9 0 Open)
                w' (ExternalError "lease lost"))
      as (_ & [(Hinv & _) | (_ & Hs & _)])
  end.
  - vm_compute. reflexivity.
  - left. split; reflexivity.
  - discriminate Hinv.
  - exact Hs.
Defined.

Lemma allocTaskIDs_within_block_witness :
  allocTaskIDs workingStore 3
    (mkTaskWriter (mkTaskListDB 1 0 [] 1 0) smallConfig 0 [] 4 (mkTaskIDBlock 4 10) 3 0 Open)
  = Done (ROk [4; 5; 6])
      (mkTaskWriter (mkTaskListDB 1 0 [] 1 0) smallConfig 0 [] 4 (mkTaskIDBlock 7 10) 3 0 Open).
Proof.
  rewrite (allocTaskIDs_within_block workingStore 3).
  - reflexivity.
  - rewrite min_int_value. cbn. lia.
  - cbn. lia.
  - rewrite max_int_value. cbn. lia.
Defined.

(** Block [1..10] used up while the db holds range-id 3. *)
Lemma allocTaskIDs_invalid_state_witness :
  allocTaskIDs workingStore 1
    (mkTaskWriter (mkTaskListDB 3 0 [] 1 0) smallConfig 0 [] 4 (mkTaskIDBlock 11 10) 10 0 Open)
  = Done (RErr InvalidStateError)
      (mkTaskWriter (mkTaskListDB 3 0 [] 1 0) smallConfig 0 [] 4 (mkTaskIDBlock 11 10) 10 0 Open).
Proof.
  apply (allocTaskIDs_invalid_state workingStore 0).
  - cbn. lia.
  - vm_compute. discriminate.
Defined.


(** ** Batches and the admission queue *)

Lemma Stop_frame w a w' :
  Stop w = Done a w' ->
  db w' = db w /\ config w' = config w /\ appendCh w' = appendCh w /\
  appendChCap w' = appendChCap w /\ w_taskIDBlock w' = w_taskIDBlock w /\
  maxReadLevel w' = maxReadLevel w.
Proof.
  unfold Stop. destruct (stopped w =? 0).
  - destruct (stopCh w); [|discriminate]. intros [= <- <-]. simpl_writer. auto 10.
  - intros [= <- <-]. auto 10.
Qed.

(** X14.  [getWriteBatch] takes requests from the head of the queue, in
    order, and loses none: the batch followed by what is left on the queue is
    what it was given followed by the old queue.  It adds at most
    [MaxTaskBatchSize] requests, and fewer only when it has emptied the
    queue. *)
Theorem getWriteBatch_conserves (reqs : list writeTaskRequest) (w : taskWriter) :
  exists batch w',
    getWriteBatch reqs w = Done batch w' /\
    batch ++ appendCh w' = reqs ++ appendCh w /\
    (length batch <= length reqs + Z.to_nat (MaxTaskBatchSize (config w)))%nat /\
    (appendCh w' <> [] ->
     length batch = (length reqs + Z.to_nat (MaxTaskBatchSize (config w)))%nat) /\
    w' = set_appendCh (appendCh w') w.
Proof.
  rewrite getWriteBatch_spec. eexists. eexists. split; [reflexivity|].
  set (M := Z.to_nat (MaxTaskBatchSize (config w))). simpl_writer.
  split; [rewrite <- app_assoc, take_drop; reflexivity|].
  split; [rewrite length_app, length_take; lia|].
  split; [|reflexivity].
  intros Hleft. rewrite length_app, length_take.
  destruct (Nat.le_gt_cases (length (appendCh w)) M) as [Hle|Hgt]; [|lia].
  exfalso. apply Hleft. apply drop_ge. exact Hle.
Qed.

Section Turns.

Variable env : Collaborators.

(** The shape of a turn of the loop, when it returns. *)
Lemma writeBatch_shape request w out w' :
  writeBatch env request w = Done out w' ->
  appendCh w' = drop (Z.to_nat (MaxTaskBatchSize (config w))) (appendCh w) /\
  appendChCap w' = appendChCap w /\
  config w' = config w /\
  exists e resp,
    out = sendWriteResponse
            (request :: take (Z.to_nat (MaxTaskBatchSize (config w))) (appendCh w)) e resp.
Proof.
  unfold writeBatch. unfold bind at 1. rewrite getWriteBatch_spec.
  set (M := Z.to_nat (MaxTaskBatchSize (config w))).
  set (w1 := set_appendCh (drop M (appendCh w)) w).
  change ([request] ++ take M (appendCh w)) with (request :: take M (appendCh w)).
  set (reqs := request :: take M (appendCh w)).
  unfold bind at 1.
  destruct (allocTaskIDs env (length reqs) w1) as [r w2|] eqn:Halloc; [|discriminate].
  unfold allocTaskIDs in Halloc.
  destruct (allocTaskIDs_loop_effect env _ _ _ _ _ Halloc)
    as ((Hcfg & Hq & Hcap & _) & _).
  destruct r as [ids|e].
  - destruct (buildTasks reqs ids 0 [] 0) as [[tasks level]|]; [|discriminate].
    unfold bind at 1, get at 1.
    destruct (CreateTasks env tasks (db w2)) as [cr d].
    unfold bind at 1, modify at 1.
    destruct (match cr with ROk r => (Some r, None) | RErr e => (None, Some e) end)
      as [resp e].
    destruct (handleErr env e) as [e' stops].
    unfold bind at 1.
    destruct ((if stops then tlMgr_Stop else ret ()) (set_db d w2)) as [[] w3|] eqn:Hstop;
      [|discriminate].
    assert (Hframe : config w3 = config w2 /\ appendCh w3 = appendCh w2 /\
                     appendChCap w3 = appendChCap w2).
    { destruct stops.
      - destruct (Stop_frame _ _ _ Hstop) as (_ & H1 & H2 & H3 & _). auto.
      - injection Hstop as <-. auto. }
    destruct Hframe as (Hcfg3 & Hq3 & Hcap3).
    unfold bind at 1.
    destruct (level >? 0); unfold modify; cbn [ret]; intros [= <- <-]; simpl_writer;
      rewrite ?Hcfg3, ?Hq3, ?Hcap3, ?Hcfg, ?Hq, ?Hcap;
      (repeat split; try reflexivity); eexists; eexists; reflexivity.
  - cbn [ret]. intros [= <- <-]. rewrite Hcfg, Hq, Hcap.
    repeat split; try reflexivity. eexists. eexists. reflexivity.
Qed.

(** X15.  A turn of the loop answers every request of its batch, once, in
    queue order, and with one and the same error and response; requests
    beyond the batch stay on the queue. *)
Theorem writeBatch_same_outcome (request : writeTaskRequest) (w w' : taskWriter)
  (out : list (nat * writeTaskResponse)) :
  writeBatch env request w = Done out w' ->
  exists e resp,
    out = map (fun req => (responseCh req, {| err := e; persistenceResponse := resp |}))
              (request :: take (Z.to_nat (MaxTaskBatchSize (config w))) (appendCh w)) /\
    appendCh w' = drop (Z.to_nat (MaxTaskBatchSize (config w))) (appendCh w).
Proof.
  intros H. destruct (writeBatch_shape _ _ _ _ H) as (Hq & _ & _ & e & resp & Hout).
  exists e, resp. split; [exact Hout | exact Hq].
Qed.

Lemma step_queue_bounded ev s s' :
  step env ev s = Ok s' ->
  queue_bounded (writer s) ->
  queue_bounded (writer s') /\ appendChCap (writer s') = appendChCap (writer s).
Proof.
  assert (Hsame : Ok s = Ok s' -> queue_bounded (writer s) ->
            queue_bounded (writer s') /\ appendChCap (writer s') = appendChCap (writer s)).
  { intros [= <-] Hb. split; [exact Hb | reflexivity]. }
  unfold queue_bounded in *. destruct ev as [e t ch| | |]; cbn [step].
  - unfold appendTask. destruct (isStopped (writer s)).
    { destruct s; exact Hsame. }
    destruct (Nat.ltb_spec (length (appendCh (writer s))) (appendChCap (writer s))).
    + intros [= <-] Hb. cbn [writer]. simpl_writer.
      rewrite length_app. cbn [length]. split; [lia | reflexivity].
    + destruct s; exact Hsame.
  - destruct (Stop (writer s)) as [a w|] eqn:Hstop; [|discriminate].
    intros [= <-] Hb. cbn [writer].
    destruct (Stop_frame _ _ _ Hstop) as (_ & _ & Hq & Hcap & _). rewrite Hq, Hcap. auto.
  - destruct (loop s); try exact Hsame.
    destruct (appendCh (writer s)) as [|request rest] eqn:Hqueue; [exact Hsame|].
    destruct (writeBatch env request _) as [out w|] eqn:Hturn; [|discriminate].
    intros [= <-] Hb. cbn [writer].
    destruct (writeBatch_shape _ _ _ _ Hturn) as (Hq & Hcap & _).
    simpl_writer. rewrite Hq, Hcap, length_drop. cbn [length] in Hb. split; [lia | reflexivity].
  - destruct (loop s), (stopCh (writer s)); try exact Hsame.
    intros [= <-] Hb. cbn [writer]. auto.
Qed.

(** X16.  The admission queue never outgrows its capacity, and the capacity
    never changes: over any sequence of appends, stops and turns of the loop,
    a queue within its bound stays within it. *)
Theorem run_queue_bounded (evs : list event) (s s' : system) :
  run env evs s = Ok s' ->
  queue_bounded (writer s) ->
  queue_bounded (writer s') /\ appendChCap (writer s') = appendChCap (writer s).
Proof.
  revert s. induction evs as [|ev evs IH]; intros s; cbn [run].
  - intros [= <-]. auto.
  - destruct (step env ev s) as [s1| |] eqn:Hstep; try discriminate.
    intros Hrun Hb.
    destruct (step_queue_bounded _ _ _ Hstep Hb) as (Hb1 & Hcap1).
    destruct (IH s1 Hrun Hb1) as (Hb' & Hcap'). split; [exact Hb' | congruence].
Qed.

(** X17.  Once the loop has left through its stop branch, nothing happens
    any more: every further event leaves writer, loop and responses as they
    are, so the requests still on the queue are never answered; a caller
    parked on such a request can only come back with [errShutdown]. *)
Theorem loop_exit_is_final (s : system) :
  loop s = Exited ->
  stopped (writer s) = 1 ->
  stopCh (writer s) = Closed ->
  (forall evs, run env evs s = Ok s) /\
  (forall ch r e,
     (forall resp, ~ In (ch, resp) (sent s)) ->
     appendTask_returns (writer s) (sent s) ch r e ->
     r = None /\ e = Some errShutdown).
Proof.
  intros Hloop Hs Hc. split.
  - induction evs as [|ev evs IH]; [reflexivity|]. cbn [run].
    assert (Hstep : step env ev s = Ok s).
    { destruct s as [w l snt]. cbn [loop writer] in *. subst l.
      destruct ev as [e t ch| | |]; cbn [step writer loop sent].
      - rewrite (appendTask_stopped _ _ _ _ Hs). reflexivity.
      - unfold Stop. rewrite Hs. reflexivity.
      - reflexivity.
      - reflexivity. }
    rewrite Hstep. exact IH.
  - intros ch r e Hnone Hret. inversion Hret as [resp Hin | Hclosed]; subst.
    + exfalso. eapply Hnone. exact Hin.
    + auto.
Qed.

End Turns.

Lemma getWriteBatch_conserves_witness :
  let r := fun ch => mkWriteTaskRequest "wf" "t" ch in
  getWriteBatch [r 0%nat]
    (mkTaskWriter freshDB smallConfig 0 [r 1%nat; r 2%nat; r 3%nat] 4 (mkTaskIDBlock 0 0) 0 0 Open)
  = Done [r 0%nat; r 1%nat; r 2%nat]
      (mkTaskWriter freshDB smallConfig 0 [r 3%nat] 4 (mkTaskIDBlock 0 0) 0 0 Open).
Proof.
  cbv zeta.
  destruct (getWriteBatch_conserves
              [mkWriteTaskRequest "wf" "t" 0]
              (mkTaskWriter freshDB smallConfig 0
                 [mkWriteTaskRequest "wf" "t" 1; mkWriteTaskRequest "wf" "t" 2;
                  mkWriteTaskRequest "wf" "t" 3] 4 (mkTaskIDBlock 0 0) 0 0 Open))
    as (batch & w' & Hrun & _).
  rewrite Hrun. vm_compute in Hrun. injection Hrun as <- <-. reflexivity.
Defined.

(** A turn on a queue of two, with a failing store: both callers get the
    same error. *)
Lemma writeBatch_same_outcome_witness :
  exists e resp w',
    writeBatch failingStore (mkWriteTaskRequest "wf" "a" 0)
      (mkTaskWriter (mkTaskListDB 1 0 [] 1 0) smallConfig 0 [mkWriteTaskRequest "wf" "b" 1] 4
         (mkTaskIDBlock 1 10) 0 0 Open)
    = Done [(0%nat, {| err := e; persistenceResponse := resp |});
            (1%nat, {| err := e; persistenceResponse := resp |})] w'.
Proof.
  destruct (writeBatch failingStore (mkWriteTaskRequest "wf" "a" 0)
              (mkTaskWriter (mkTaskListDB 1 0 [] 1 0) smallConfig 0
                 [mkWriteTaskRequest "wf" "b" 1] 4 (mkTaskIDBlock 1 10) 0 0 Open))
    as [out w'|msg] eqn:Hturn.
  - destruct (writeBatch_same_outcome failingStore _ _ _ _ Hturn) as (e & resp & Hout & _).
    exists e, resp, w'. rewrite Hout. reflexivity.
  - exfalso. vm_compute in Hturn. discriminate Hturn.
Defined.

(** Five appends on a queue of four, then a turn of the loop. *)
Lemma run_queue_bounded_witness :
  exists s',
    run workingStore
      [EvAppend "wf" "t" 0; EvAppend "wf" "t" 1; EvAppend "wf" "t" 2; EvAppend "wf" "t" 3;
       EvAppend "wf" "t" 4; EvLoopAppendCh]
      (mkSystem (mkTaskWriter (mkTaskListDB 1 0 [] 1 0) smallConfig 0 [] 4
                   (mkTaskIDBlock 1 10) 0 0 Open) Running [])
    = Ok s' /\
    queue_bounded (writer s') /\ appendChCap (writer s') = 4%nat.
Proof.
  exists_result
    (run workingStore
       [EvAppend "wf" "t" 0; EvAppend "wf" "t" 1; EvAppend "wf" "t" 2; EvAppend "wf" "t" 3;
        EvAppend "wf" "t" 4; EvLoopAppendCh]
       (mkSystem (mkTaskWriter (mkTaskListDB 1 0 [] 1 0) smallConfig 0 [] 4
                    (mkTaskIDBlock 1 10) 0 0 Open) Running [])).
  split; [vm_compute; reflexivity|].
  eapply (run_queue_bounded workingStore
            [EvAppend "wf" "t" 0; EvAppend "wf" "t" 1; EvAppend "wf" "t" 2; EvAppend "wf" "t" 3;
             EvAppend "wf" "t" 4; EvLoopAppendCh]
            (mkSystem (mkTaskWriter (mkTaskListDB 1 0 [] 1 0) smallConfig 0 [] 4
                         (mkTaskIDBlock 1 10) 0 0 Open) Running [])).
  - vm_compute. reflexivity.
  - unfold queue_bounded. cbn. lia.
Defined.

(** A stopped writer whose loop has exited with one request left behind. *)
Lemma loop_exit_is_final_witness :
  run workingStore [EvAppend "wf" "t" 1; EvLoopAppendCh; EvStop; EvLoopStopCh]
    (mkSystem (mkTaskWriter (mkTaskListDB 1 0 [] 1 0) smallConfig 0
                 [mkWriteTaskRequest "wf" "t" 0] 4 (mkTaskIDBlock 1 10) 0 1 Closed)
       Exited [])
  = Ok (mkSystem (mkTaskWriter (mkTaskListDB 1 0 [] 1 0) smallConfig 0
                    [mkWriteTaskRequest "wf" "t" 0] 4 (mkTaskIDBlock 1 10) 0 1 Closed)
          Exited []).
Proof.
  apply (loop_exit_is_final workingStore
           (mkSystem (mkTaskWriter (mkTaskListDB 1 0 [] 1 0) smallConfig 0
                        [mkWriteTaskRequest "wf" "t" 0] 4 (mkTaskIDBlock 1 10) 0 1 Closed)
              Exited [])); reflexivity.
Defined.

(** ** What a turn of the loop commits *)

Section Commits.

Variable env : Collaborators.

(** The tasks built for a batch carry the ids in order and, request by
    request, the execution and the task info. *)
Lemma buildTasks_fields s n reqs : forall i tasks level tasks' level',
  (i + length reqs <= n)%nat ->
  buildTasks reqs (seqZ s (Z.of_nat n)) i tasks level = Some (tasks', level') ->
  map TaskID tasks' = map TaskID tasks ++ seqZ (s + Z.of_nat i) (Z.of_nat (length reqs)) /\
  map Execution tasks' = map Execution tasks ++ map execution reqs /\
  map Data tasks' = map Data tasks ++ map taskInfo reqs.
Proof.
  induction reqs as [|req rest IH]; intros i tasks level tasks' level' Hlen;
    cbn [buildTasks length map].
  - intros [= <- <-]. rewrite seqZ_nil, !app_nil_r by lia. auto.
  - cbn [length] in Hlen. rewrite lookup_seqZ_lt by lia. intros Hrest.
    apply IH in Hrest; [|lia]. destruct Hrest as (Hid & Hex & Hdata).
    rewrite !map_app in *. cbn [map TaskID Execution Data] in *.
    rewrite <- !app_assoc in *. cbn [app] in *.
    split; [|split; assumption].
    rewrite Hid. f_equal. rewrite (seqZ_cons _ (Z.of_nat (S (length rest)))) by lia.
    f_equal. f_equal; lia.
Qed.

(** A turn of the loop on a received request, in full. *)
Lemma writeBatch_turn request w :
  block_inv w -> stop_consistent w ->
  maxReadLevel w < start (w_taskIDBlock w) ->
  headroom (S (length (appendCh w))) w ->
  returns (writeBatch env request w) (fun out w' =>
    let reqs := request :: take (Z.to_nat (MaxTaskBatchSize (config w))) (appendCh w) in
    let s := start (w_taskIDBlock w) in
    let n := Z.of_nat (length reqs) in
    (exists e0,
       lease_error env e0 /\
       out = sendWriteResponse reqs (Some e0) None /\
       committed (db w') = committed (db w) /\
       maxReadLevel w' = maxReadLevel w)
    \/
    (start (w_taskIDBlock w') = s + n /\
     maxReadLevel w' = s + n - 1 /\
     match createTasksOutcome env (createCalls (db w)) with
     | Some e1 =>
         committed (db w') = committed (db w) /\
         out = sendWriteResponse reqs (fst (handleErr env (Some e1))) None
     | None =>
         exists tasks,
           committed (db w') = committed (db w) ++ tasks /\
           map TaskID tasks = seqZ s n /\
           map Execution tasks = map execution reqs /\
           map Data tasks = map taskInfo reqs /\
           out = sendWriteResponse reqs (fst (handleErr env None))
                   (Some mkCreateTasksResponse)
     end)).
Proof.
  intros Hinv Hc Hmrl Hroom. cbv zeta.
  unfold writeBatch. unfold bind at 1. rewrite getWriteBatch_spec.
  set (M := Z.to_nat (MaxTaskBatchSize (config w))).
  set (w1 := set_appendCh (drop M (appendCh w)) w).
  change ([request] ++ take M (appendCh w)) with (request :: take M (appendCh w)).
  set (reqs := request :: take M (appendCh w)).
  assert (Hn : length reqs = S (Nat.min M (length (appendCh w)))).
  { unfold reqs. cbn [length]. rewrite length_take. reflexivity. }
  pose proof (allocTaskIDs_spec env (length reqs) w1) as Halloc.
  assert (Hroom1 : headroom (length reqs) w1).
  { apply (headroom_le (S (length (appendCh w)))); [lia | exact Hinv | exact Hroom]. }
  specialize (Halloc Hinv Hc Hroom1).
  unfold bind at 1. destruct (allocTaskIDs env (length reqs) w1) as [r w2|]; [|exact Halloc].
  cbn [returns] in Halloc.
  destruct Halloc as (Hinv2 & Hc2 & Hframe & Hk2 & Hs2 & Hr).
  destruct Hframe as (Hcfg2 & Hq2 & Hcap2 & Hmrl2 & Hcom2 & Hcalls2).
  change (w_taskIDBlock w1) with (w_taskIDBlock w) in *.
  change (db w1) with (db w) in *. change (maxReadLevel w1) with (maxReadLevel w) in *.
  destruct r as [ids|e].
  - destruct Hr as (-> & Hstart2).
    destruct (buildTasks_seqZ (start (w_taskIDBlock w)) (length reqs) reqs 0 [] 0
                ltac:(lia)) as (tasks & Hbuild).
    rewrite Hbuild.
    destruct (buildTasks_fields (start (w_taskIDBlock w)) (length reqs) reqs 0 [] 0 tasks _
                ltac:(lia) Hbuild) as (Hid & Hex & Hdata).
    cbn [map app] in Hid, Hex, Hdata. rewrite Z.add_0_r in Hid.
    assert (Hreqs : forall x y : Z, match reqs with [] => x | _ :: _ => y end = y)
      by reflexivity.
    rewrite !Hreqs. cbn [Nat.add].
    set (level := start (w_taskIDBlock w) + Z.of_nat (length reqs) - 1).
    assert (Hlevel : 0 < level).
    { unfold level. destruct Hinv as (HR & Hk & _ & Hlo & _). nia. }
    unfold bind at 1, get at 1. unfold CreateTasks. rewrite Hcalls2.
    destruct (createTasksOutcome env (createCalls (db w))) as [e1|].
    + unfold bind at 1, modify at 1.
      destruct (handleErr env (Some e1)) as [e' stops]. cbn [fst].
      unfold bind at 1.
      match goal with |- context [(if stops then tlMgr_Stop else ret ()) ?w3] =>
        assert (Hstop : exists w4,
                   (if stops then tlMgr_Stop else ret ()) w3 = Done () w4 /\
                   db w4 = db w3 /\ w_taskIDBlock w4 = w_taskIDBlock w3)
          by (destruct stops;
              [ destruct (Stop_returns w3 Hc2)
                  as (w4 & Hrun & _ & Hdb & _ & _ & _ & Hb & _); exists w4; auto
              | eexists; split; [reflexivity|]; auto ])
      end.
      destruct Hstop as (w4 & Hrun4 & Hdb4 & Hblk4). rewrite Hrun4. unfold bind at 1.
      destruct (Z.gtb_spec level 0) as [_|Hneg]; [|lia].
      unfold modify. cbn [returns ret]. right. simpl_writer.
      rewrite Hdb4, Hblk4. simpl_writer. auto.
    + unfold bind at 1, modify at 1.
      destruct (handleErr env None) as [e' stops]. cbn [fst].
      unfold bind at 1.
      match goal with |- context [(if stops then tlMgr_Stop else ret ()) ?w3] =>
        assert (Hstop : exists w4,
                   (if stops then tlMgr_Stop else ret ()) w3 = Done () w4 /\
                   db w4 = db w3 /\ w_taskIDBlock w4 = w_taskIDBlock w3)
          by (destruct stops;
              [ destruct (Stop_returns w3 Hc2)
                  as (w4 & Hrun & _ & Hdb & _ & _ & _ & Hb & _); exists w4; auto
              | eexists; split; [reflexivity|]; auto ])
      end.
      destruct Hstop as (w4 & Hrun4 & Hdb4 & Hblk4). rewrite Hrun4. unfold bind at 1.
      destruct (Z.gtb_spec level 0) as [_|Hneg]; [|lia].
      unfold modify. cbn [returns ret]. right. simpl_writer.
      rewrite Hdb4, Hblk4. simpl_writer.
      split; [exact Hstart2|]. split; [reflexivity|].
      exists tasks. rewrite Hcom2. auto 10.
  - cbn [returns ret]. left. exists e. auto.
Qed.





Lemma store_inv_same w w' :
  committed (db w') = committed (db w) ->
  maxReadLevel w <= maxReadLevel w' ->
  store_inv w -> store_inv w'.
Proof.
  unfold store_inv. intros -> Hle (Hsorted & Hbound). split; [exact Hsorted|].
  eapply Forall_impl; [exact Hbound|]. cbn. intros. lia.
Qed.

Lemma step_store_inv ev budget s s' :
  writer_inv (S budget) (writer s) ->
  store_inv (writer s) ->
  step env ev s = Ok s' ->
  store_inv (writer s') /\
  exists added, committed (db (writer s')) = committed (db (writer s)) ++ added.
Proof.
  intros (Hblk & Hc & Hmrl & Hroom) Hstore.
  assert (Hsame : Ok s = Ok s' ->
            store_inv (writer s') /\
            exists added, committed (db (writer s')) = committed (db (writer s)) ++ added).
  { intros [= <-]. split; [exact Hstore|]. exists []. rewrite app_nil_r. reflexivity. }
  destruct ev as [e t ch| | |]; cbn [step].
  - unfold appendTask. destruct (isStopped (writer s)); [destruct s; exact Hsame|].
    destruct (length (appendCh (writer s)) <? appendChCap (writer s))%nat;
      [|destruct s; exact Hsame].
    intros [= <-]. cbn [writer]. split; [exact Hstore|].
    exists []. rewrite app_nil_r. reflexivity.
  - destruct (Stop (writer s)) as [a w|] eqn:Hstop; [|discriminate].
    intros [= <-]. cbn [writer].
    destruct (Stop_frame _ _ _ Hstop) as (Hdb & _ & _ & _ & _ & Hm).
    split; [apply (store_inv_same (writer s)); [rewrite Hdb; reflexivity | lia | exact Hstore]|].
    exists []. rewrite Hdb, app_nil_r. reflexivity.
  - destruct (loop s); try exact Hsame.
    destruct (appendCh (writer s)) as [|request rest] eqn:Hq; [exact Hsame|].
    pose proof (writeBatch_turn request (set_appendCh rest (writer s))) as Hturn.
    cbn [length] in Hroom.
    assert (Hroom' : headroom (S (length (appendCh (set_appendCh rest (writer s)))))
                       (set_appendCh rest (writer s))).
    { apply (headroom_le (S (length rest) + S budget)); [cbn; lia | exact Hblk | exact Hroom]. }
    specialize (Hturn Hblk Hc Hmrl Hroom').
    destruct (writeBatch env request _) as [out w'|]; [|destruct Hturn].
    intros [= <-]. cbn [writer returns] in *. cbv zeta in Hturn. simpl_writer.
    destruct Hturn as [(e0 & _ & _ & Hcom & Hm) | (Hstart & Hlevel & Hcase)].
    + split; [apply (store_inv_same (writer s)); [exact Hcom | lia | exact Hstore]|].
      exists []. rewrite Hcom, app_nil_r. reflexivity.
    + set (n := Z.of_nat (length (request ::
                 take (Z.to_nat (MaxTaskBatchSize (config (writer s)))) rest))) in *.
      assert (Hn : 0 < n) by (unfold n; cbn [length]; lia).
      destruct (createTasksOutcome env (createCalls (db (writer s)))) as [e1|].
      * destruct Hcase as (Hcom & _).
        split; [apply (store_inv_same (writer s)); [exact Hcom | lia | exact Hstore]|].
        exists []. rewrite Hcom, app_nil_r. reflexivity.
      * destruct Hcase as (tasks & Hcom & Hids & _).
        split; [|exists tasks; exact Hcom].
        destruct Hstore as (Hsorted & Hbound).
        unfold store_inv. rewrite Hcom, map_app, Hids, Hlevel. split.
        -- apply StronglySorted_app. split; [|split].
           ++ intros x1 x2 Hx1 Hx2. apply elem_of_seqZ in Hx2.
              rewrite Forall_forall in Hbound. specialize (Hbound x1 Hx1). lia.
           ++ exact Hsorted.
           ++ unfold n. apply seqZ_strictly_sorted.
        -- apply Forall_app. split.
           ++ eapply Forall_impl; [exact Hbound|]. cbn. intros. lia.
           ++ apply Forall_seqZ. intros. lia.
  - destruct (loop s), (stopCh (writer s)); try exact Hsame.
    intros [= <-]. cbn [writer]. split; [exact Hstore|].
    exists []. rewrite app_nil_r. reflexivity.
Qed.

Lemma run_store_inv evs : forall budget s,
  writer_inv (length evs + budget) (writer s) ->
  store_inv (writer s) ->
  exists s',
    run env evs s = Ok s' /\ store_inv (writer s') /\
    exists added, committed (db (writer s')) = committed (db (writer s)) ++ added.
Proof.
  induction evs as [|ev evs IH]; intros budget s Hinv Hstore; cbn [run].
  - exists s. split; [reflexivity|]. split; [exact Hstore|].
    exists []. rewrite app_nil_r. reflexivity.
  - destruct (step_spec env ev (length evs + budget) s Hinv) as (s1 & Hstep & Hinv1 & _).
    destruct (step_store_inv ev _ s s1 Hinv Hstore Hstep) as (Hstore1 & added1 & Hadd1).
    rewrite Hstep.
    destruct (IH budget s1 Hinv1 Hstore1) as (s' & Hrun & Hstore' & added & Hadd).
    exists s'. split; [exact Hrun|]. split; [exact Hstore'|].
    exists (added1 ++ added). rewrite Hadd, Hadd1, app_assoc. reflexivity.
Qed.

(** X20.  Over any sequence of appends, stops and turns of the loop, the
    task store only grows at its end, the ids of its tasks stay strictly
    increasing in commit order, and no committed id is above the
    watermark. *)
Theorem run_store_ordered (evs : list event) (s : system) :
  writer_inv (length evs) (writer s) ->
  store_inv (writer s) ->
  exists s',
    run env evs s = Ok s' /\
    StronglySorted Z.lt (map TaskID (committed (db (writer s')))) /\
    Forall (fun id => id <= maxReadLevel (writer s'))
      (map TaskID (committed (db (writer s')))) /\
    exists added, committed (db (writer s')) = committed (db (writer s)) ++ added.
Proof.
  intros Hinv Hstore.
  destruct (run_store_inv evs 0%nat s) as (s' & Hrun & (Hsorted & Hbound) & Hadd).
  - replace (length evs + 0)%nat with (length evs) by lia. exact Hinv.
  - exact Hstore.
  - exists s'. auto.
Qed.

End Commits.




(** Three appends and two turns of the loop on a working store. *)
Lemma run_store_ordered_witness :
  exists s',
    run workingStore
      [EvAppend "wf" "a" 0; EvAppend "wf" "b" 1; EvLoopAppendCh; EvAppend "wf" "c" 2;
       EvLoopAppendCh]
      (mkSystem (mkTaskWriter (mkTaskListDB 1 0 [] 1 0) smallConfig 0 [] 4
                   (mkTaskIDBlock 1 10) 0 0 Open) Running [])
    = Ok s' /\
    StronglySorted Z.lt (map TaskID (committed (db (writer s')))).
Proof.
  destruct (run_store_ordered workingStore
              [EvAppend "wf" "a" 0; EvAppend "wf" "b" 1; EvLoopAppendCh; EvAppend "wf" "c" 2;
               EvLoopAppendCh]
              (mkSystem (mkTaskWriter (mkTaskListDB 1 0 [] 1 0) smallConfig 0 [] 4
                           (mkTaskIDBlock 1 10) 0 0 Open) Running []))
    as (s' & Hrun & Hsorted & _).
  - unfold writer_inv, block_inv, stop_consistent, headroom. cbn.
    rewrite max_int_value. repeat split; try lia. left. split; reflexivity.
  - unfold store_inv. cbn. split; constructor.
  - exists s'. split; [exact Hrun | exact Hsorted].
Defined.

(** ** Starting *)

(** X21.  When the first lease is granted and the new block fits the 64-bit
    integers, [Start] puts the writer on the block of the new range-id, one
    past the range-id the db held, sets the watermark just below the block,
    so that readers see nothing of it yet, and hands the stored ack level to
    the ack manager. *)
Theorem Start_lease_granted (env : Collaborators) (w : taskWriter) :
  leaseOutcome env (leaseCalls (db w)) = None ->
  0 <= db_rangeID (db w) ->
  0 < RangeSize (config w) ->
  (db_rangeID (db w) + 1) * RangeSize (config w) < Int64.max_int ->
  exists w',
    Start env w = Done None w' /\
    db_rangeID (db w') = db_rangeID (db w) + 1 /\
    w_taskIDBlock w' =
      {| start := db_rangeID (db w) * RangeSize (config w) + 1;
         end_ := (db_rangeID (db w) + 1) * RangeSize (config w) |} /\
    maxReadLevel w' = db_rangeID (db w) * RangeSize (config w) /\
    ackManagerLevel w' = db_ackLevel (db w) /\
    stopped w' = stopped w /\ appendCh w' = appendCh w.
Proof.
  intros Hl Hk HR Hfit. rewrite max_int_value in Hfit.
  assert (HkR : db_rangeID (db w) + 1 <= (db_rangeID (db w) + 1) * RangeSize (config w))
    by nia.
  unfold Start. unfold bind at 1.
  rewrite renewLeaseWithRetry_granted by exact Hl.
  assert (Hk1 : Int64.add (db_rangeID (db w)) 1 = db_rangeID (db w) + 1).
  { unfold Int64.add. apply wrap_small. unfold Int64.in_range.
    rewrite max_int_value, min_int_value. lia. }
  rewrite Hk1. simpl_writer.
  unfold bind at 1, modify at 1. unfold bind at 1, get at 1. simpl_writer.
  rewrite rangeIDToTaskIDBlock_exact by (rewrite ?max_int_value; lia).
  unfold bind at 1, modify at 1. unfold bind at 1, modify at 1. simpl_writer.
  replace (db_rangeID (db w) + 1 - 1) with (db_rangeID (db w)) by lia.
  assert (Hsub : Int64.sub (db_rangeID (db w) * RangeSize (config w) + 1) 1
                 = db_rangeID (db w) * RangeSize (config w)).
  { unfold Int64.sub. rewrite wrap_small; [lia|]. unfold Int64.in_range.
    rewrite max_int_value, min_int_value. nia. }
  rewrite Hsub. cbn [ret]. eexists. split; [reflexivity|]. simpl_writer. auto 10.
Qed.

(** Block size ten and a db at range-id 0: block [1..10], watermark 0. *)
Lemma Start_lease_granted_witness :
  exists w',
    Start workingStore
      (mkTaskWriter freshDB smallConfig 0 [] 4 (mkTaskIDBlock 0 0) 0 0 Open) = Done None w' /\
    w_taskIDBlock w' = {| start := 1; end_ := 10 |} /\
    maxReadLevel w' = 0.
Proof.
  destruct (Start_lease_granted workingStore
              (mkTaskWriter freshDB smallConfig 0 [] 4 (mkTaskIDBlock 0 0) 0 0 Open))
    as (w' & Hstart & _ & Hblk & Hm & _).
  - reflexivity.
  - cbn. lia.
  - cbn. lia.
  - rewrite max_int_value. cbn. lia.
  - exists w'. split; [exact Hstart|]. rewrite Hblk, Hm. split; reflexivity.
Defined.

End MatchingMore.

Module PartitionByID.
Import Partition PartitionFacts.

(** X22.  [IsDrainedByDomainID] first asks the domain cache for the domain
    of the id: if the cache knows it, the answer is that of [IsDrained] for
    the domain's name; if not, the answer is the cache's error, wrapped once
    by the handler and once by the partitioner, and neither the feature gate
    nor the drain table is consulted. *)
Theorem IsDrainedByDomainID_resolves (z : DefaultZoneStateHandler)
  (domainID : string) (zone : ZoneName) :
  match GetDomainByID (domainCache z) domainID with
  | ROk domain =>
      IsDrainedByDomainID (partitionerOf z) domainID zone =
      IsDrained (partitionerOf z) (DomainName domain) zone
  | RErr e =>
      IsDrainedByDomainID (partitionerOf z) domainID zone =
      RErr (Errorf "could not determine if drained"
              (Errorf "could not resolve domain in zone handler" e))
  end.
Proof.
  unfold IsDrainedByDomainID, IsDrained.
  cbn [partitionerOf drainState handlerZoneState zs_Get zs_GetByDomainID].
  unfold GetByDomainID.
  destruct (GetDomainByID (domainCache z) domainID) as [domain|e]; reflexivity.
Qed.

End PartitionByID.

(** * Leases and blocks behind the ids *)

Module MatchingLease.
Import Matching Int64Facts MatchingFacts MatchingMore.

Section Leases.

Variable env : Collaborators.

Lemma renewLeaseWithRetry_refused_calls w e w' :
  renewLeaseWithRetry env w = Done (RErr e) w' ->
  leaseOutcome env (leaseCalls (db w)) = Some e /\
  leaseCalls (db w') = S (leaseCalls (db w)) /\
  db_rangeID (db w') = db_rangeID (db w) /\
  w_taskIDBlock w' = w_taskIDBlock w.
Proof.
  unfold renewLeaseWithRetry, bind, get, modify, RenewLease, tlMgr_Stop.
  destruct (leaseOutcome env (leaseCalls (db w))) as [e0|] eqn:Hl.
  - destruct (Stop _) as [[] w1|] eqn:Hstop; [|discriminate].
    cbn [ret]. intros [= <- <-].
    destruct (Stop_frame _ _ _ Hstop) as (Hdb & _ & _ & _ & Hb & _).
    rewrite Hdb, Hb. simpl_writer. auto.
  - cbn [ret]. discriminate.
Qed.

(** Where the ids of a call come from: leases are renewed one by one, each
    only when the block at hand is used up. *)
Lemma allocTaskIDs_loop_lease togo : forall res w r w',
  allocTaskIDs_loop env togo res w = Done r w' ->
  block_inv w -> headroom togo w ->
  db_rangeID (db w) <= db_rangeID (db w') /\
  match r with
  | ROk _ =>
      (db_rangeID (db w') = db_rangeID (db w) \/
       (db_rangeID (db w') - 1) * RangeSize (config w)
         < start (w_taskIDBlock w) + Z.of_nat togo - 1) /\
      Z.of_nat (leaseCalls (db w')) =
        Z.of_nat (leaseCalls (db w)) + (db_rangeID (db w') - db_rangeID (db w)) /\
      (forall i, (leaseCalls (db w) <= i < leaseCalls (db w'))%nat ->
                 leaseOutcome env i = None)
  | RErr e =>
      exists i,
        (leaseCalls (db w) <= i)%nat /\
        leaseOutcome env i = Some e /\
        leaseCalls (db w') = S i /\
        (forall j, (leaseCalls (db w) <= j < i)%nat -> leaseOutcome env j = None) /\
        start (w_taskIDBlock w') = end_ (w_taskIDBlock w') + 1
  end.
Proof.
  induction togo as [|togo IH]; intros res w r w' Hrun Hinv Hroom;
    cbn [allocTaskIDs_loop] in Hrun.
  - cbn [ret] in Hrun. injection Hrun as <- <-.
    split; [lia|]. split; [left; reflexivity|]. split; [lia|]. intros i Hi. lia.
  - destruct Hinv as (HR & Hk & Hend & Hlo & Hhi).
    unfold headroom in Hroom. rewrite max_int_value in Hroom.
    set (k := db_rangeID (db w)) in *. set (R := RangeSize (config w)) in *.
    assert (Hfit1 : (k + 1) * R <= (k + Z.of_nat (S togo)) * R) by nia.
    assert (HkR : k <= k * R) by nia.
    unfold bind at 1, get at 1 in Hrun. unfold bind at 1 in Hrun.
    destruct (Z.gtb_spec (start (w_taskIDBlock w)) (end_ (w_taskIDBlock w))) as [Hgt|Hle].
    + unfold bind at 1, allocTaskIDBlock at 1, bind at 1, get at 1 in Hrun.
      fold k R in Hrun.
      rewrite rangeIDToTaskIDBlock_exact in Hrun by (rewrite ?max_int_value; lia).
      cbn [end_] in Hrun. rewrite <- Hend, Z.eqb_refl in Hrun. cbn [negb] in Hrun.
      unfold bind at 1 in Hrun.
      destruct (renewLeaseWithRetry env w) as [[state|e] w1|] eqn:Hrenew; [| |discriminate].
      * (* the lease is renewed *)
        destruct (renewLeaseWithRetry_effect env w _ w1 Hrenew) as (_ & Hl & _).
        rewrite (renewLeaseWithRetry_granted env w Hl) in Hrenew.
        injection Hrenew as <- <-. fold k in Hrun.
        assert (Hk1 : Int64.add k 1 = k + 1).
        { unfold Int64.add. apply wrap_small. unfold Int64.in_range.
          rewrite max_int_value, min_int_value. lia. }
        rewrite Hk1 in Hrun. cbn [ret rangeID] in Hrun. fold R in Hrun.
        rewrite rangeIDToTaskIDBlock_exact in Hrun by (rewrite ?max_int_value; lia).
        unfold bind at 1, modify at 1 in Hrun. cbn [ret] in Hrun.
        unfold bind at 1, get at 1 in Hrun. unfold bind at 1, modify at 1 in Hrun.
        simpl_writer. replace (k + 1 - 1) with k in Hrun by lia.
        assert (Hid : Int64.add (k * R + 1) 1 = k * R + 2).
        { unfold Int64.add. rewrite wrap_small; [lia|]. unfold Int64.in_range.
          rewrite max_int_value, min_int_value. lia. }
        rewrite Hid in Hrun.
        apply IH in Hrun.
        -- simpl_writer. fold R in Hrun. destruct Hrun as (Hk' & Hr).
           split; [lia|].
           destruct r as [ids|e].
           ++ destruct Hr as (Hlast & Hcalls & Hnone).
              split; [right; nia|]. split; [lia|].
              intros i Hi. destruct (Nat.eq_dec i (leaseCalls (db w))) as [->|Hne];
                [exact Hl | apply Hnone; lia].
           ++ destruct Hr as (i & Hi & Hle & Hc' & Hnone & Hfull).
              exists i. split; [lia|]. split; [exact Hle|]. split; [exact Hc'|].
              split; [|exact Hfull].
              intros j Hj. destruct (Nat.eq_dec j (leaseCalls (db w))) as [->|Hne];
                [exact Hl | apply Hnone; lia].
        -- unfold block_inv. simpl_writer. fold R. repeat split; nia.
        -- unfold headroom. simpl_writer. fold R. rewrite max_int_value. nia.
      * (* the lease is refused *)
        cbn [ret] in Hrun. injection Hrun as <- <-.
        destruct (renewLeaseWithRetry_refused_calls w e w1 Hrenew)
          as (Hl & Hc1 & Hk1 & Hb1).
        rewrite Hk1, Hb1. fold k. split; [lia|].
        exists (leaseCalls (db w)). split; [lia|]. split; [exact Hl|].
        split; [exact Hc1|]. split; [intros j Hj; lia | lia].
    + cbn [ret] in Hrun. unfold bind at 1, get at 1 in Hrun.
      unfold bind at 1, modify at 1 in Hrun.
      assert (Hid : Int64.add (start (w_taskIDBlock w)) 1 = start (w_taskIDBlock w) + 1).
      { unfold Int64.add. apply wrap_small. unfold Int64.in_range.
        rewrite max_int_value, min_int_value. nia. }
      rewrite Hid in Hrun. apply IH in Hrun.
      * simpl_writer. fold k R in Hrun. destruct Hrun as (Hk' & Hr).
        split; [exact Hk'|].
        destruct r as [ids|e]; [|exact Hr].
        destruct Hr as (Hlast & Hcalls & Hnone).
        split; [|split; assumption].
        destruct Hlast as [Hsame | Hlast]; [left; exact Hsame | right; lia].
      * unfold block_inv. simpl_writer. fold k R. repeat split; lia.
      * unfold headroom. simpl_writer. fold k R. rewrite max_int_value. nia.
Qed.

(** An id between the first id of block [k] and the last of block [k']
    lies in the block of a range-id from [k] to [k']. *)
Lemma id_in_leased_block k k' R id :
  0 < R -> 1 <= k -> k' * R < Int64.max_int ->
  (k - 1) * R + 1 <= id <= k' * R ->
  exists j,
    k <= j <= k' /\
    start (rangeIDToTaskIDBlock j R) <= id <= end_ (rangeIDToTaskIDBlock j R).
Proof.
  intros HR Hk Hfit Hid.
  pose proof (Z.div_mod (id - 1) R ltac:(lia)) as Hdm.
  pose proof (Z.mod_pos_bound (id - 1) R HR) as Hmod.
  set (q := (id - 1) / R) in *.
  assert (Hq1 : k - 1 <= q) by (apply Z.div_le_lower_bound; lia).
  assert (Hq2 : q < k') by (apply Z.div_lt_upper_bound; lia).
  exists (q + 1). split; [lia|].
  rewrite rangeIDToTaskIDBlock_exact by nia.
  cbn [start end_]. replace (q + 1 - 1) with q by lia. nia.
Qed.

(** C5.  On a writer whose block is that of its lease, a call of
    [allocTaskIDs] returns, and returns either exactly [count] ids or the
    error of a lease renewal, never a shorter list.  The ids are the
    consecutive ids from the writer's next id on; they are drawn from the
    current block while it lasts, and when it is used up in mid-call the
    lease is renewed and the ids go on in the block of the new range-id:
    leases are renewed one at a time and only on exhaustion, every renewal
    asked for was granted, and every id lies in the block of a range-id held
    during the call.  A failed call stops at the refused renewal, with the
    block used up.  The writer's block is again that of its lease, and over
    the calls that follow, the ids of the calls that succeed are strictly
    increasing. *)
Theorem allocTaskIDs_strictly_increasing (count : nat) (counts : list nat)
  (w : taskWriter) :
  block_inv w -> stop_consistent w -> headroom (count + sum_list counts) w ->
  exists r w1 rs w',
    allocTaskIDs env count w = Done r w1 /\
    block_inv w1 /\
    match r with
    | ROk ids =>
        length ids = count /\
        ids = seqZ (start (w_taskIDBlock w)) (Z.of_nat count) /\
        w_taskIDBlock w1 =
          {| start := start (w_taskIDBlock w) + Z.of_nat count;
             end_ := db_rangeID (db w1) * RangeSize (config w) |} /\
        db_rangeID (db w) <= db_rangeID (db w1) /\
        (start (w_taskIDBlock w) + Z.of_nat count - 1 <= end_ (w_taskIDBlock w) ->
         db_rangeID (db w1) = db_rangeID (db w)) /\
        (db_rangeID (db w) < db_rangeID (db w1) ->
         (db_rangeID (db w1) - 1) * RangeSize (config w)
           < start (w_taskIDBlock w) + Z.of_nat count - 1) /\
        Z.of_nat (leaseCalls (db w1)) =
          Z.of_nat (leaseCalls (db w)) + (db_rangeID (db w1) - db_rangeID (db w)) /\
        (forall i, (leaseCalls (db w) <= i < leaseCalls (db w1))%nat ->
                   leaseOutcome env i = None) /\
        Forall (fun id =>
                  exists j,
                    db_rangeID (db w) <= j <= db_rangeID (db w1) /\
                    start (rangeIDToTaskIDBlock j (RangeSize (config w))) <= id
                      <= end_ (rangeIDToTaskIDBlock j (RangeSize (config w)))) ids
    | RErr e =>
        exists i,
          (leaseCalls (db w) <= i)%nat /\
          leaseOutcome env i = Some e /\
          leaseCalls (db w1) = S i /\
          (forall j, (leaseCalls (db w) <= j < i)%nat -> leaseOutcome env j = None) /\
          start (w_taskIDBlock w1) = end_ (w_taskIDBlock w1) + 1
    end /\
    allocTaskIDs_calls env counts w1 = Done rs w' /\
    Forall2 (fun count r =>
               match r with
               | ROk ids => length ids = count /\ StronglySorted Z.lt ids
               | RErr e => lease_error env e
               end) counts rs /\
    StronglySorted Z.lt (successes (r :: rs)).
Proof.
  intros Hinv Hc Hroom.
  assert (Hroom0 : headroom count w).
  { apply (headroom_le (count + sum_list counts)); [lia | exact Hinv | exact Hroom]. }
  pose proof (allocTaskIDs_calls_spec env (count :: counts) w Hinv Hc Hroom) as Hall.
  pose proof (allocTaskIDs_spec env count w Hinv Hc Hroom0) as Hone.
  cbn [allocTaskIDs_calls] in Hall. unfold bind at 1 in Hall.
  destruct (allocTaskIDs env count w) as [r w1|] eqn:Hrun; [|destruct Hone].
  unfold bind at 1 in Hall.
  destruct (allocTaskIDs_calls env counts w1) as [rs w'|] eqn:Hrest; [|destruct Hall].
  cbn [returns ret] in Hall, Hone.
  destruct Hall as (_ & _ & _ & Hforall & Hsorted & _).
  destruct Hone as (Hinv1 & _ & Hframe & Hk1 & _ & Hr).
  destruct (allocTaskIDs_loop_lease count [] w r w1 Hrun Hinv Hroom0) as (Hkle & Hlease).
  exists r, w1, rs, w'. split; [reflexivity|]. split; [exact Hinv1|].
  split; [|split; [exact Hrest|]; split; [inversion Hforall; assumption | exact Hsorted]].
  destruct Hinv as (HR & Hk & Hend & Hlo & Hhi).
  destruct Hinv1 as (_ & _ & Hend1 & _ & Hhi1).
  destruct Hframe as (Hcfg & _).
  destruct r as [ids|e]; [|exact Hlease].
  destruct Hr as (-> & Hstart1). destruct Hlease as (Hlast & Hcalls & Hnone).
  rewrite Hcfg in Hend1.
  split; [rewrite length_seqZ; lia|]. split; [reflexivity|].
  split.
  { destruct (w_taskIDBlock w1) as [s1 e1]. cbn [start end_] in *. congruence. }
  split; [exact Hkle|].
  split.
  { intros Hfits. destruct Hlast as [Hsame | Hlast]; [exact Hsame|]. nia. }
  split.
  { intros Hmore. destruct Hlast as [Hsame | Hlast]; [lia | exact Hlast]. }
  split; [exact Hcalls|]. split; [exact Hnone|].
  apply Forall_seqZ. intros id Hid.
  apply id_in_leased_block; try assumption.
  - unfold headroom in Hroom0. nia.
  - nia.
Qed.

End Leases.

(** Block [1..10] with [start] at 9: a call for three ids takes 9 and 10
    from the block, renews the lease once and takes 11 from the block of
    range-id 2; the next call for two goes on from there. *)
Lemma allocTaskIDs_strictly_increasing_witness :
  exists w1 w',
    allocTaskIDs workingStore 3
      (mkTaskWriter (mkTaskListDB 1 0 [] 1 0) smallConfig 0 [] 4 (mkTaskIDBlock 9 10) 8 0 Open)
    = Done (ROk [9; 10; 11]) w1 /\
    db_rangeID (db w1) = 2 /\ leaseCalls (db w1) = 2%nat /\
    w_taskIDBlock w1 = {| start := 12; end_ := 20 |} /\
    allocTaskIDs_calls workingStore [2%nat] w1 = Done [ROk [12; 13]] w'.
Proof.
  destruct (allocTaskIDs_strictly_increasing workingStore 3 [2%nat]
              (mkTaskWriter (mkTaskListDB 1 0 [] 1 0) smallConfig 0 [] 4
                 (mkTaskIDBlock 9 10) 8 0 Open))
    as (r & w1 & rs & w' & Hrun & _ & _ & Hrest & _).
  - unfold block_inv. cbn. lia.
  - left. split; reflexivity.
  - unfold headroom. cbn. rewrite max_int_value. lia.
  - exists w1, w'. vm_compute in Hrun. injection Hrun as <- <-.
    vm_compute in Hrest. injection Hrest as <- <-.
    repeat split; vm_compute; reflexivity.
Defined.

End MatchingLease.
